(** * Duke Draft (room 1362) auction analysis: a shallow embedding

    This development embeds [server/analysis/analyze_duke_1362.py] and
    proves properties of its aggregation pipeline.

    Modelling conventions.
    - Python [int] values (bids, totals, counts) are unbounded and are
      modelled by [Z].
    - The results of true division [/], of [statistics.mean] and of
      [statistics.median] are modelled by the exact rational quotient in
      [Q]; the binary64 rounding of the Python float is not modelled.
      [statistics.stdev] is kept symbolic as the root of the exact sample
      variance ([Root]).
    - A Python [dict] (and [defaultdict]) keeps insertion order; it is
      modelled by an association list whose keys are pairwise distinct,
      new keys being appended at the end.
    - Exceptions are modelled by the [result] type; a function that can
      raise returns [result A]. *)

From Stdlib Require Import List String ZArith QArith Lia Bool Permutation
  Sorted.
Import ListNotations.

Open Scope string_scope.
Open Scope Z_scope.

(** ** Exceptions *)

Inductive PyError : Type :=
| ZeroDivisionError
| IndexError
| KeyError
| StatisticsError
| ValueError.

Inductive result (A : Type) : Type :=
| Ok (a : A)
| Raise (e : PyError).

Arguments Ok {A} a.
Arguments Raise {A} e.

Definition bind {A B : Type} (c : result A) (k : A -> result B) : result B :=
  match c with
  | Ok a => k a
  | Raise e => Raise e
  end.

Notation "x <- c ;; k" := (bind c (fun x => k))
  (at level 61, c at next level, right associativity).

Fixpoint mapM {A B : Type} (f : A -> result B) (l : list A) : result (list B) :=
  match l with
  | [] => Ok []
  | x :: l' => y <- f x ;; ys <- mapM f l' ;; Ok (y :: ys)
  end.

(** ** Insertion-ordered dictionaries with string keys *)

Module Dict.

Definition t (V : Type) : Type := list (string * V).

Definition empty {V : Type} : t V := [].

Definition keys {V : Type} (d : t V) : list string := map fst d.

Definition values {V : Type} (d : t V) : list V := map snd d.

(** [d.get(k)] / [k in d]. *)
Fixpoint get {V : Type} (k : string) (d : t V) : option V :=
  match d with
  | [] => None
  | (k', v) :: d' => if String.eqb k k' then Some v else get k d'
  end.

Definition contains {V : Type} (k : string) (d : t V) : bool :=
  match get k d with Some _ => true | None => false end.

(** The value read by [d[k]] on a [defaultdict] whose factory returns
    [dflt]. *)
Definition get_or {V : Type} (dflt : V) (k : string) (d : t V) : V :=
  match get k d with Some v => v | None => dflt end.

(** [d[k] = v]: overwrite in place, or append a new key. *)
Fixpoint set {V : Type} (k : string) (v : V) (d : t V) : t V :=
  match d with
  | [] => [(k, v)]
  | (k', v') :: d' =>
      if String.eqb k k' then (k', v) :: d' else (k', v') :: set k v d'
  end.

(** An in-place change [f] of [d[k]] on a [defaultdict] whose factory
    returns [dflt]: a missing key is first inserted with [dflt]. *)
Fixpoint update {V : Type} (dflt : V) (k : string) (f : V -> V) (d : t V)
  : t V :=
  match d with
  | [] => [(k, f dflt)]
  | (k', v) :: d' =>
      if String.eqb k k' then (k', f v) :: d'
      else (k', v) :: update dflt k f d'
  end.

(** The dictionary built from a sequence of key/value pairs, a later pair
    overwriting an earlier one with the same key. *)
Definition of_items {V : Type} (items : list (string * V)) : t V :=
  fold_left (fun d kv => set (fst kv) (snd kv) d) items empty.

(** Dict comprehension [{k: f(k, v) for k, v in d.items()}] with a body
    that may raise. *)
Definition map_items {V W : Type} (f : string -> V -> result W) (d : t V)
  : result (t W) :=
  items <- mapM (fun kv => w <- f (fst kv) (snd kv) ;; Ok (fst kv, w)) d ;;
  Ok (of_items items).

End Dict.

(** ** Numbers *)

Definition sum (l : list Z) : Z := fold_left Z.add l 0.

Definition len {A : Type} (l : list A) : Z := Z.of_nat (List.length l).

(** True division [a / b]. *)
Definition truediv (a b : Q) : result Q :=
  if Qeq_bool b 0 then Raise ZeroDivisionError else Ok (a / b)%Q.

(** A reported number: an exact value, or the square root of one. *)
Inductive num : Type :=
| Exact (q : Q)
| Root (q : Q).

(** ** Player records *)

(** A player object of the auction snapshot as parsed from JSON; [None]
    stands for an absent key. *)
Record PlayerObj : Type := {
  obj_fullName : string;
  obj_positions : option (list string);
  obj_status : option string;
  obj_winningBid : option Z;
  obj_winningTeam : option string;
  obj_mlbTeam : option string
}.

(** A drafted player: a player object that passed the extractor's filter,
    so that [p['winningBid']] is defined. *)
Record Player : Type := {
  fullName : string;
  positions : option (list string);
  winningBid : Z;
  winningTeam : option string;
  mlbTeam : option string
}.

Definition bids (players : list Player) : list Z := map winningBid players.

(** [p.get('positions', [])] *)
Definition get_positions (p : Player) : list string :=
  match positions p with Some ps => ps | None => [] end.

(** [p.get('winningTeam', 'Unknown')] *)
Definition get_team (p : Player) : string :=
  match winningTeam p with Some t => t | None => "Unknown" end.

Definition option_eqb (o : option string) (s : string) : bool :=
  match o with Some x => String.eqb x s | None => false end.

(** ** extract_players *)

Definition drafted (o : PlayerObj) : option Player :=
  if option_eqb (obj_status o) "drafted" then
    match obj_winningBid o with
    | Some b => Some {| fullName := obj_fullName o;
                        positions := obj_positions o;
                        winningBid := b;
                        winningTeam := obj_winningTeam o;
                        mlbTeam := obj_mlbTeam o |}
    | None => None
    end
  else None.

Fixpoint filter_map {A B : Type} (f : A -> option B) (l : list A) : list B :=
  match l with
  | [] => []
  | x :: l' =>
      match f x with
      | Some y => y :: filter_map f l'
      | None => filter_map f l'
      end
  end.

Definition extract_players (player_objs : list PlayerObj)
  : list Player * list Player :=
  let all_players := filter_map drafted player_objs in
  let duke_players :=
    filter (fun p => option_eqb (winningTeam p) "Duke") all_players in
  (all_players, duke_players).

(** ** analyze_teams *)

Record TeamData : Type := {
  players : list Player;
  total : Z
}.

Definition new_team : TeamData := {| players := []; total := 0 |}.

Definition append_player (p : Player) (d : TeamData) : TeamData :=
  {| players := players d ++ [p]; total := total d |}.

Definition add_total (b : Z) (d : TeamData) : TeamData :=
  {| players := players d; total := total d + b |}.

Definition analyze_teams_step (teams : Dict.t TeamData) (p : Player)
  : Dict.t TeamData :=
  let team := get_team p in
  let teams := Dict.update new_team team (append_player p) teams in
  Dict.update new_team team (add_total (winningBid p)) teams.

Definition analyze_teams (all_players : list Player) : Dict.t TeamData :=
  fold_left analyze_teams_step all_players Dict.empty.

(** ** The [statistics] module and the built-ins used *)

Definition Qlt_bool (a b : Q) : bool := negb (Qle_bool b a).

Definition Zq (z : Z) : Q := inject_Z z.

(** [sorted(l, key=key, reverse=reverse)]: a stable sort. *)
Fixpoint insert_by {A : Type} (key : A -> Z) (reverse : bool) (x : A)
  (l : list A) : list A :=
  match l with
  | [] => [x]
  | y :: l' =>
      if (if reverse then key y <=? key x else key x <=? key y)
      then x :: y :: l'
      else y :: insert_by key reverse x l'
  end.

Definition sorted {A : Type} (key : A -> Z) (reverse : bool) (l : list A)
  : list A :=
  fold_right (insert_by key reverse) [] l.

(** [l[i]] for a non-negative index. *)
Definition getitem {A : Type} (l : list A) (i : nat) : result A :=
  match nth_error l i with
  | Some x => Ok x
  | None => Raise IndexError
  end.

(** [statistics.mean] *)
Definition mean (data : list Z) : result Q :=
  match data with
  | [] => Raise StatisticsError
  | _ => Ok (Zq (sum data) / Zq (len data))%Q
  end.

(** [statistics.median] *)
Definition median (data : list Z) : result Q :=
  let data := sorted (fun x => x) false data in
  let n := List.length data in
  match n with
  | O => Raise StatisticsError
  | _ =>
      if Nat.odd n then Ok (Zq (nth (Nat.div n 2) data 0))
      else
        let i := Nat.div n 2 in
        let pair_sum := nth (i - 1) data 0 + nth i data 0 in
        Ok (Zq pair_sum / 2)%Q
  end.

(** [max] and [min] over a list. *)
Definition max_ (data : list Z) : result Z :=
  match data with
  | [] => Raise ValueError
  | x :: l => Ok (fold_left Z.max l x)
  end.

Definition min_ (data : list Z) : result Z :=
  match data with
  | [] => Raise ValueError
  | x :: l => Ok (fold_left Z.min l x)
  end.

(** The exact sample variance: the sum of squared deviations from the mean
    over [n - 1]. *)
Definition sample_variance (data : list Z) : Q :=
  let n := Zq (len data) in
  let c := (Zq (sum data) / n)%Q in
  let ss := fold_left (fun acc x => (acc + (Zq x - c) * (Zq x - c))%Q) data 0%Q in
  (ss / (n - 1))%Q.

(** [statistics.stdev] *)
Definition stdev (data : list Z) : result num :=
  if len data <? 2 then Raise StatisticsError
  else Ok (Root (sample_variance data)).

(** ** analyze_positions *)

Module PositionAcc.
Record t : Type := { bids : list Z; count : Z }.
End PositionAcc.

Module PositionStats.
Record t : Type := {
  count : Z;
  totalSpent : Z;
  avgBid : Q;
  medianBid : Q;
  maxBid : Z;
  minBid : Z;
  stdDev : num
}.
End PositionStats.

Definition new_position : PositionAcc.t :=
  {| PositionAcc.bids := []; PositionAcc.count := 0 |}.

Definition append_bid (b : Z) (a : PositionAcc.t) : PositionAcc.t :=
  {| PositionAcc.bids := PositionAcc.bids a ++ [b];
     PositionAcc.count := PositionAcc.count a |}.

Definition incr_count (a : PositionAcc.t) : PositionAcc.t :=
  {| PositionAcc.bids := PositionAcc.bids a;
     PositionAcc.count := PositionAcc.count a + 1 |}.

Definition position_step (p : Player) (stats : Dict.t PositionAcc.t)
  (pos : string) : Dict.t PositionAcc.t :=
  let stats := Dict.update new_position pos (append_bid (winningBid p)) stats in
  Dict.update new_position pos incr_count stats.

Definition position_stats (players : list Player) : Dict.t PositionAcc.t :=
  fold_left (fun stats p => fold_left (position_step p) (get_positions p) stats)
    players Dict.empty.

Definition position_summary (stats : PositionAcc.t) : result PositionStats.t :=
  let bids := PositionAcc.bids stats in
  avg <- mean bids ;;
  med <- median bids ;;
  mx <- max_ bids ;;
  mn <- min_ bids ;;
  sd <- (if 1 <? len bids then stdev bids else Ok (Exact 0)) ;;
  Ok {| PositionStats.count := PositionAcc.count stats;
        PositionStats.totalSpent := sum bids;
        PositionStats.avgBid := avg;
        PositionStats.medianBid := med;
        PositionStats.maxBid := mx;
        PositionStats.minBid := mn;
        PositionStats.stdDev := sd |}.

Definition analyze_positions (players : list Player)
  : result (Dict.t PositionStats.t) :=
  Dict.map_items (fun _ stats => position_summary stats)
    (position_stats players).

(** ** analyze_price_tiers *)

Module TierStats.
Record t : Type := {
  minPrice : Z;
  maxPrice : option Z;
  count : Z;
  totalSpent : Z;
  percentOfTotal : Q;
  avgBid : Q
}.
End TierStats.

Definition tiers : list (Z * Z * string) :=
  [ (1, 5, "Filler ($1-$5)");
    (6, 10, "Value ($6-$10)");
    (11, 15, "Mid-tier ($11-$15)");
    (16, 20, "Quality ($16-$20)");
    (21, 30, "Star ($21-$30)");
    (31, 999, "Elite ($31+)") ].

(** [min_p <= p['winningBid'] <= max_p] *)
Definition in_tier (min_p max_p : Z) (p : Player) : bool :=
  (min_p <=? winningBid p) && (winningBid p <=? max_p).

Definition tier_entry (players : list Player) (total_spent : Z)
  (min_p max_p : Z) : result TierStats.t :=
  let members := filter (in_tier min_p max_p) players in
  pct <- (if 0 <? total_spent then
            q <- truediv (Zq (sum (bids members))) (Zq total_spent) ;;
            Ok (q * 100)%Q
          else Ok 0%Q) ;;
  avg <- (if existsb (in_tier min_p max_p) players then mean (bids members)
          else Ok 0%Q) ;;
  Ok {| TierStats.minPrice := min_p;
        TierStats.maxPrice := if max_p <? 999 then Some max_p else None;
        TierStats.count := len members;
        TierStats.totalSpent := sum (bids members);
        TierStats.percentOfTotal := pct;
        TierStats.avgBid := avg |}.

Definition analyze_price_tiers (players : list Player)
  : result (Dict.t TierStats.t) :=
  let total_spent := sum (bids players) in
  items <- mapM (fun t : Z * Z * string =>
                   let '(min_p, max_p, label) := t in
                   e <- tier_entry players total_spent min_p max_p ;;
                   Ok (label, e))
             (filter (fun t : Z * Z * string =>
                        let '(min_p, max_p, _) := t in
                        existsb (in_tier min_p max_p) players)
                tiers) ;;
  Ok (Dict.of_items items).

(** ** duke_position_breakdown *)

Module PositionBreakdown.
Record t : Type := {
  count : Z;
  totalSpent : Z;
  avgBid : Q;
  players : list (string * Z)
}.
End PositionBreakdown.

Definition duke_positions (duke_players : list Player)
  : Dict.t (list Player) :=
  fold_left
    (fun acc p =>
       fold_left (fun acc pos => Dict.update [] pos (fun l => (l ++ [p])%list) acc)
         (get_positions p) acc)
    duke_players Dict.empty.

Definition breakdown_entry (players : list Player)
  : result PositionBreakdown.t :=
  avg <- mean (bids players) ;;
  Ok {| PositionBreakdown.count := len players;
        PositionBreakdown.totalSpent := sum (bids players);
        PositionBreakdown.avgBid := avg;
        PositionBreakdown.players :=
          map (fun p => (fullName p, winningBid p)) players |}.

Definition duke_position_breakdown (duke_players : list Player)
  : result (Dict.t PositionBreakdown.t) :=
  Dict.map_items (fun _ players => breakdown_entry players)
    (duke_positions duke_players).

(** ** compare_duke_to_league *)

Module Comparison.
Record t : Type := {
  dukeAvg : Q;
  leagueAvg : Q;
  difference : Q;
  percentDiff : Q;
  interpretation : string
}.
End Comparison.

Fixpoint foldM {A B : Type} (f : A -> B -> result A) (l : list B) (a : A)
  : result A :=
  match l with
  | [] => Ok a
  | x :: l' => a' <- f a x ;; foldM f l' a'
  end.

Definition compare_entry (duke_avg league_avg : Q) : result Comparison.t :=
  pct <- (if Qlt_bool 0 league_avg then
            q <- truediv (duke_avg - league_avg)%Q league_avg ;;
            Ok (q * 100)%Q
          else Ok 0%Q) ;;
  Ok {| Comparison.dukeAvg := duke_avg;
        Comparison.leagueAvg := league_avg;
        Comparison.difference := (duke_avg - league_avg)%Q;
        Comparison.percentDiff := pct;
        Comparison.interpretation :=
          if Qlt_bool league_avg duke_avg then "overpaid" else "value" |}.

Definition compare_step (league_pos_stats : Dict.t PositionStats.t)
  (comparison : Dict.t Comparison.t) (item : string * PositionBreakdown.t)
  : result (Dict.t Comparison.t) :=
  let '(pos, duke_data) := item in
  match Dict.get pos league_pos_stats with
  | Some league =>
      c <- compare_entry (PositionBreakdown.avgBid duke_data)
             (PositionStats.avgBid league) ;;
      Ok (Dict.set pos c comparison)
  | None => Ok comparison
  end.

Definition compare_duke_to_league (duke_players all_players : list Player)
  : result (Dict.t Comparison.t) :=
  league_pos_stats <- analyze_positions all_players ;;
  duke_pos_breakdown <- duke_position_breakdown duke_players ;;
  foldM (compare_step league_pos_stats) duke_pos_breakdown Dict.empty.

(** ** The historical inflation reference *)

Record InflationEntry : Type := { avgInflationRate : Q }.

Record Aggregate : Type := {
  avgOverallInflationRate : Q;
  stdDevInflationRate : Q;
  minInflationRate : Q;
  maxInflationRate : Q;
  aggregateTierInflation : list InflationEntry;
  aggregatePriceRangeInflation : list InflationEntry;
  aggregatePositionInflation : list InflationEntry
}.

Record Historical : Type := { aggregate : Aggregate }.

(** ** generate_insights *)

(** An f-string: its source text and the values of its replacement
    fields, in order; the rendering of the numbers is not modelled. *)
Record Text : Type := { template : string; fields : list Q }.

Definition lit (s : string) : Text := {| template := s; fields := [] |}.

Record Insight : Type := {
  category : string;
  finding : Text;
  implication : string
}.

Definition expected_budget : Z := 260.

Definition generate_insights (duke_players all_players : list Player)
  (teams : Dict.t TeamData) (historical : Historical)
  : result (list Insight) :=
  let duke_total := sum (bids duke_players) in
  let total_spent := sum (bids all_players) in
  let num_teams := len teams in
  let remaining_budget := expected_budget - duke_total in
  q <- truediv (Zq duke_total) (Zq expected_budget) ;;
  let budget_pct := (q * 100)%Q in
  let budget_status :=
    {| category := "Budget Status";
       finding :=
         {| template := "Duke has spent ${duke_total} of ${expected_budget} budget ({budget_pct:.1f}%), with ${remaining_budget} remaining";
            fields := [Zq duke_total; Zq expected_budget; budget_pct;
                       Zq remaining_budget] |};
       implication :=
         if Qlt_bool budget_pct 80 then "Moderate"
         else if Qlt_bool budget_pct 90 then "Low" else "Very Low" |} in
  avg_roster <- truediv (Zq (len all_players)) (Zq num_teams) ;;
  let roster_size :=
    {| category := "Roster Size";
       finding :=
         {| template := "Duke has {len(duke_players)} players vs league average of {avg_roster:.1f}";
            fields := [Zq (len duke_players); avg_roster] |};
       implication :=
         if Qlt_bool (Zq (len duke_players)) avg_roster then "Below average"
         else "Above average" |} in
  duke_avg <- truediv (Zq duke_total) (Zq (len duke_players)) ;;
  league_avg <- truediv (Zq total_spent) (Zq (len all_players)) ;;
  let player_value :=
    {| category := "Average Player Value";
       finding :=
         {| template := "Duke's avg player cost: ${duke_avg:.1f} vs league avg: ${league_avg:.1f}";
            fields := [duke_avg; league_avg] |};
       implication :=
         if Qlt_bool league_avg duke_avg then "Targeting premium players"
         else "Value-focused strategy" |} in
  tier1 <- getitem (aggregateTierInflation (aggregate historical)) 0 ;;
  let hist_tier1_infl := avgInflationRate tier1 in
  elite <- getitem (aggregatePriceRangeInflation (aggregate historical)) 3 ;;
  let hist_elite_infl := avgInflationRate elite in
  let elite_context :=
    {| category := "Historical Context - Elite Players";
       finding :=
         {| template := "Historically, Tier 1 elite players show {hist_tier1_infl:.1f}% inflation (typically undervalued)";
            fields := [hist_tier1_infl] |};
       implication :=
         "Elite players are historically the best value in auctions" |} in
  budget <- getitem (aggregatePriceRangeInflation (aggregate historical)) 0 ;;
  let budget_context :=
    {| category := "Historical Context - Budget Players";
       finding :=
         {| template := "$1-$5 players show {avgInflationRate:.1f}% avg inflation";
            fields := [avgInflationRate budget] |};
       implication :=
         "Budget players are consistently overvalued - avoid overpaying for replacement level" |} in
  Ok [budget_status; roster_size; player_value; elite_context;
      budget_context].

(** ** create_analysis *)

Record Metadata : Type := { fetchedAt : string }.

Record AuctionData : Type := {
  metadata : Metadata;
  data_players : list PlayerObj
}.

Module ReportMetadata.
Record t : Type := {
  roomId : string;
  leagueName : string;
  leagueType : string;
  projectionSystem : string;
  analysisDate : string
}.
End ReportMetadata.

Module LeagueOverview.
Record t : Type := {
  totalTeams : Z;
  totalPlayersDrafted : Z;
  totalMoneySpent : Z;
  averageSpendPerTeam : Q;
  expectedBudgetPerTeam : Z;
  averageRosterSize : Q;
  budgetUtilization : Q
}.
End LeagueOverview.

Module RosterSummary.
Record t : Type := {
  playerCount : Z;
  totalSpent : Z;
  remainingBudget : Z;
  budgetUtilization : Q;
  averagePerPlayer : Q
}.
End RosterSummary.

Module RosterEntry.
Record t : Type := {
  name : string;
  positions : list string;
  winningBid : Z;
  mlbTeam : string
}.
End RosterEntry.

Module DukeRoster.
Record t : Type := {
  summary : RosterSummary.t;
  players : list RosterEntry.t;
  positionBreakdown : Dict.t PositionBreakdown.t;
  priceTierBreakdown : Dict.t TierStats.t
}.
End DukeRoster.

Module LeagueMarket.
Record t : Type := {
  positionStats : Dict.t PositionStats.t;
  priceTierStats : Dict.t TierStats.t
}.
End LeagueMarket.

Module OverallComparison.
Record t : Type := {
  dukeAvgBid : Q;
  leagueAvgBid : Q;
  difference : Q;
  percentDiff : Q
}.
End OverallComparison.

Module DukeVsLeague.
Record t : Type := {
  positionComparison : Dict.t Comparison.t;
  overallComparison : OverallComparison.t
}.
End DukeVsLeague.

Module TeamComparison.
Record t : Type := {
  playerCount : Z;
  totalSpent : Z;
  avgPerPlayer : Q;
  remainingBudget : Z;
  budgetUtilization : Q
}.
End TeamComparison.

Module HistoricalContext.
Record range : Type := { min : Q; max : Q }.
Record summary_t : Type := {
  averageInflationRate : Q;
  inflationStdDev : Q;
  inflationRange : range
}.
Record t : Type := {
  summary : summary_t;
  tierInflationPatterns : list InflationEntry;
  priceRangeInflation : list InflationEntry;
  positionInflation : list InflationEntry
}.
End HistoricalContext.

Module Analysis.
Record t : Type := {
  metadata : ReportMetadata.t;
  leagueOverview : LeagueOverview.t;
  dukeRoster : DukeRoster.t;
  leagueMarket : LeagueMarket.t;
  dukeVsLeague : DukeVsLeague.t;
  teamComparison : Dict.t TeamComparison.t;
  historicalContext : HistoricalContext.t;
  insights : list Insight;
  keyFindings : list Text;
  recommendations : list Text
}.
End Analysis.

(** [int(x)]: truncation towards zero. *)
Definition int_ (q : Q) : Z := Z.quot (Qnum q) (Zpos (Qden q)).

(** One element of the roster list; [p['positions']] raises when the key
    is absent. *)
Definition roster_entry (p : Player) : result RosterEntry.t :=
  match positions p with
  | None => Raise KeyError
  | Some ps =>
      Ok {| RosterEntry.name := fullName p;
            RosterEntry.positions := ps;
            RosterEntry.winningBid := winningBid p;
            RosterEntry.mlbTeam :=
              match mlbTeam p with Some t => t | None => "FA" end |}
  end.

Definition team_row (data : TeamData) : result TeamComparison.t :=
  avg <- (match players data with
          | [] => Ok 0%Q
          | _ => truediv (Zq (total data)) (Zq (len (players data)))
          end) ;;
  q <- truediv (Zq (total data)) 260 ;;
  Ok {| TeamComparison.playerCount := len (players data);
        TeamComparison.totalSpent := total data;
        TeamComparison.avgPerPlayer := avg;
        TeamComparison.remainingBudget := 260 - total data;
        TeamComparison.budgetUtilization := (q * 100)%Q |}.

(** The value returned by [create_analysis] is the object serialised to
    the output file; when it raises, nothing is written. *)
Definition create_analysis (auction_data : AuctionData)
  (historical : Historical) : result Analysis.t :=
  let '(all_players, duke_players) :=
    extract_players (data_players auction_data) in
  let teams := analyze_teams all_players in
  league_pos_stats <- analyze_positions all_players ;;
  duke_pos_breakdown <- duke_position_breakdown duke_players ;;
  league_price_tiers <- analyze_price_tiers all_players ;;
  duke_price_tiers <- analyze_price_tiers duke_players ;;
  duke_vs_league <- compare_duke_to_league duke_players all_players ;;
  insights <- generate_insights duke_players all_players teams historical ;;
  let duke_total := sum (bids duke_players) in
  let total_spent := sum (bids all_players) in
  let n_teams := Zq (len teams) in
  let n_all := Zq (len all_players) in
  let n_duke := Zq (len duke_players) in
  let hist := aggregate historical in
  (* leagueOverview *)
  spend_per_team <- truediv (Zq total_spent) n_teams ;;
  roster_size <- truediv n_all n_teams ;;
  league_util <- truediv (Zq total_spent) (Zq (len teams * 260)) ;;
  (* dukeRoster *)
  duke_util <- truediv (Zq duke_total) 260 ;;
  per_player <- truediv (Zq duke_total) n_duke ;;
  roster <- mapM roster_entry duke_players ;;
  (* dukeVsLeague.overallComparison *)
  duke_avg_bid <- truediv (Zq duke_total) n_duke ;;
  league_avg_bid <- truediv (Zq total_spent) n_all ;;
  d1 <- truediv (Zq duke_total) n_duke ;;
  l1 <- truediv (Zq total_spent) n_all ;;
  pct <- (if 0 <? len all_players then
            d2 <- truediv (Zq duke_total) n_duke ;;
            l2 <- truediv (Zq total_spent) n_all ;;
            l3 <- truediv (Zq total_spent) n_all ;;
            q <- truediv (d2 - l2)%Q l3 ;;
            Ok (q * 100)%Q
          else Ok 0%Q) ;;
  (* teamComparison *)
  team_rows <- Dict.map_items (fun _ data => team_row data) teams ;;
  (* keyFindings *)
  left_pct <- truediv (Zq (260 - duke_total)) 260 ;;
  k_duke <- truediv (Zq duke_total) n_duke ;;
  k_league <- truediv (Zq total_spent) n_all ;;
  k_util <- truediv (Zq total_spent) (Zq (len teams * 260)) ;;
  k_tier1 <- getitem (aggregateTierInflation hist) 0 ;;
  k_elite <- getitem (aggregatePriceRangeInflation hist) 3 ;;
  k_budget <- getitem (aggregatePriceRangeInflation hist) 0 ;;
  (* recommendations *)
  r_size <- truediv n_all n_teams ;;
  r_size' <- truediv n_all n_teams ;;
  Ok {| Analysis.metadata :=
          {| ReportMetadata.roomId := "1362";
             ReportMetadata.leagueName := "Duke Draft";
             ReportMetadata.leagueType := "15-team dynasty";
             ReportMetadata.projectionSystem := "Steamer";
             ReportMetadata.analysisDate := fetchedAt (metadata auction_data) |};
        Analysis.leagueOverview :=
          {| LeagueOverview.totalTeams := len teams;
             LeagueOverview.totalPlayersDrafted := len all_players;
             LeagueOverview.totalMoneySpent := total_spent;
             LeagueOverview.averageSpendPerTeam := spend_per_team;
             LeagueOverview.expectedBudgetPerTeam := 260;
             LeagueOverview.averageRosterSize := roster_size;
             LeagueOverview.budgetUtilization := (league_util * 100)%Q |};
        Analysis.dukeRoster :=
          {| DukeRoster.summary :=
               {| RosterSummary.playerCount := len duke_players;
                  RosterSummary.totalSpent := duke_total;
                  RosterSummary.remainingBudget := 260 - duke_total;
                  RosterSummary.budgetUtilization := (duke_util * 100)%Q;
                  RosterSummary.averagePerPlayer := per_player |};
             DukeRoster.players := sorted RosterEntry.winningBid true roster;
             DukeRoster.positionBreakdown := duke_pos_breakdown;
             DukeRoster.priceTierBreakdown := duke_price_tiers |};
        Analysis.leagueMarket :=
          {| LeagueMarket.positionStats := league_pos_stats;
             LeagueMarket.priceTierStats := league_price_tiers |};
        Analysis.dukeVsLeague :=
          {| DukeVsLeague.positionComparison := duke_vs_league;
             DukeVsLeague.overallComparison :=
               {| OverallComparison.dukeAvgBid := duke_avg_bid;
                  OverallComparison.leagueAvgBid := league_avg_bid;
                  OverallComparison.difference := (d1 - l1)%Q;
                  OverallComparison.percentDiff := pct |} |};
        Analysis.teamComparison := team_rows;
        Analysis.historicalContext :=
          {| HistoricalContext.summary :=
               {| HistoricalContext.averageInflationRate :=
                    avgOverallInflationRate hist;
                  HistoricalContext.inflationStdDev := stdDevInflationRate hist;
                  HistoricalContext.inflationRange :=
                    {| HistoricalContext.min := minInflationRate hist;
                       HistoricalContext.max := maxInflationRate hist |} |};
             HistoricalContext.tierInflationPatterns :=
               aggregateTierInflation hist;
             HistoricalContext.priceRangeInflation :=
               aggregatePriceRangeInflation hist;
             HistoricalContext.positionInflation :=
               aggregatePositionInflation hist |};
        Analysis.insights := insights;
        Analysis.keyFindings :=
          [ {| template := "Duke has drafted {len(duke_players)} players for ${duke_total}, leaving ${260 - duke_total} remaining ({((260-duke_total)/260*100):.1f}% of budget)";
               fields := [n_duke; Zq duke_total; Zq (260 - duke_total);
                          (left_pct * 100)%Q] |};
            {| template := "Duke's average player cost: ${duke_total/len(duke_players):.1f} vs league average: ${total_spent/len(all_players):.1f}";
               fields := [k_duke; k_league] |};
            {| template := "League-wide budget utilization: {(total_spent/(len(teams)*260))*100:.1f}% (${total_spent:,} of ${len(teams)*260:,} total)";
               fields := [(k_util * 100)%Q; Zq total_spent;
                          Zq (len teams * 260)] |};
            {| template := "Historical data shows elite players (Tier 1) average {avgInflationRate:.1f}% inflation - typically undervalued";
               fields := [avgInflationRate k_tier1] |};
            {| template := "Premium price range ($31+) shows {avgInflationRate:.1f}% historical inflation";
               fields := [avgInflationRate k_elite] |};
            {| template := "Budget tier ($1-$5) shows {avgInflationRate:.1f}% inflation - consistently overvalued";
               fields := [avgInflationRate k_budget] |} ];
        Analysis.recommendations :=
          [ lit "Focus remaining budget on value opportunities in mid-tier players ($16-$30 range)";
            lit "Historical data suggests elite players are typically undervalued - prioritize if available";
            lit "Avoid overpaying for replacement-level players in the $1-$5 range";
            {| template := "With ${260 - duke_total} remaining and avg roster size of {len(all_players)/len(teams):.1f}, Duke needs approximately {int(len(all_players)/len(teams)) - len(duke_players)} more players";
               fields := [Zq (260 - duke_total); r_size;
                          Zq (int_ r_size' - len duke_players)] |};
            lit "Target positions where Duke has paid below league average for potential value adds" ] |}.

(** ** Reference notions used to state the properties *)

(** The bids observed at [pos]: one per occurrence of [pos] in a player's
    position list, in input order. *)
Definition bids_at (pos : string) (players : list Player) : list Z :=
  flat_map
    (fun p => map (fun _ => winningBid p)
                (filter (String.eqb pos) (get_positions p)))
    players.

(** The players of [players] listed under [pos], in input order, once per
    occurrence of [pos] in their position list. *)
Definition players_at (pos : string) (players : list Player) : list Player :=
  flat_map
    (fun p => map (fun _ => p) (filter (String.eqb pos) (get_positions p)))
    players.

(** [pos in p.get('positions', [])] *)
Definition eligible (pos : string) (p : Player) : bool :=
  existsb (String.eqb pos) (get_positions p).

(** The number of times [pos] occurs in the position list of [p]. *)
Definition occurrences (pos : string) (p : Player) : Z :=
  len (filter (String.eqb pos) (get_positions p)).

(** Two dictionary items with the same key whose values are related by
    [R]. *)
Definition item_rel {V W : Type} (R : string -> V -> W -> Prop)
  (kv : string * V) (kw : string * W) : Prop :=
  fst kw = fst kv /\ R (fst kv) (snd kv) (snd kw).

(** The accumulator [a] after the bids [occ] have been recorded in it. *)
Definition record_bids (occ : list Z) (a : PositionAcc.t) : PositionAcc.t :=
  {| PositionAcc.bids := PositionAcc.bids a ++ occ;
     PositionAcc.count := PositionAcc.count a + len occ |}.

(** [st] is the statistics row computed from the accumulator [a]. *)
Definition summarises (a : PositionAcc.t) (st : PositionStats.t) : Prop :=
  let bs := PositionAcc.bids a in
  PositionStats.count st = PositionAcc.count a
  /\ PositionStats.totalSpent st = sum bs
  /\ mean bs = Ok (PositionStats.avgBid st)
  /\ median bs = Ok (PositionStats.medianBid st)
  /\ max_ bs = Ok (PositionStats.maxBid st)
  /\ min_ bs = Ok (PositionStats.minBid st)
  /\ PositionStats.stdDev st =
       (if 1 <? len bs then Root (sample_variance bs) else Exact 0).


Definition tier_label (t : Z * Z * string) : string := snd t.

(** The players of [players] whose bid lies in the band of tier [t]. *)
Definition tier_members (players : list Player) (t : Z * Z * string)
  : list Player :=
  filter (in_tier (fst (fst t)) (snd (fst t))) players.

(** Tier [t] has at least one member among [players]. *)
Definition tier_emitted (players : list Player) (t : Z * Z * string) : bool :=
  existsb (in_tier (fst (fst t)) (snd (fst t))) players.

(** [kv] is the output item computed for tier [t]. *)
Definition tier_rel (players : list Player) (t : Z * Z * string)
  (kv : string * TierStats.t) : Prop :=
  fst kv = tier_label t
  /\ tier_entry players (sum (bids players)) (fst (fst t)) (snd (fst t))
     = Ok (snd kv).

(** 1 when the bid of [p] lies in the band of tier [t], else 0. *)
Definition tier_hit (p : Player) (t : Z * Z * string) : Z :=
  if in_tier (fst (fst t)) (snd (fst t)) p then 1 else 0.

(** The comparison row [c] of position [pos] was computed from the two
    means stored under [pos]. *)
Definition compared (duke_bd : Dict.t PositionBreakdown.t)
  (league_stats : Dict.t PositionStats.t) (pos : string) (c : Comparison.t)
  : Prop :=
  exists d l,
    Dict.get pos duke_bd = Some d
    /\ Dict.get pos league_stats = Some l
    /\ compare_entry (PositionBreakdown.avgBid d) (PositionStats.avgBid l)
       = Ok c.

(** The historical reference supplies the entries read by the insight
    generator: tier index 0 and price-range indices 0 and 3. *)
Definition lookups_present (historical : Historical) : bool :=
  (1 <=? List.length (aggregateTierInflation (aggregate historical)))%nat
  && (4 <=? List.length
              (aggregatePriceRangeInflation (aggregate historical)))%nat.

(** The order in which [sorted(.., key=key, reverse=reverse)] leaves two
    adjacent elements. *)
Definition in_order {A : Type} (key : A -> Z) (reverse : bool) (a b : A)
  : Prop :=
  if reverse then key b <= key a else key a <= key b.



(** [e] is the roster entry built from the target-team player [p]. *)
Definition entry_of (p : Player) (e : RosterEntry.t) : Prop :=
  RosterEntry.name e = fullName p
  /\ positions p = Some (RosterEntry.positions e)
  /\ RosterEntry.winningBid e = winningBid p
  /\ RosterEntry.mlbTeam e =
       match mlbTeam p with Some t => t | None => "FA" end.

(** [row] is the comparison row computed from the team bucket [data]. *)
Definition row_of (data : TeamData) (row : TeamComparison.t) : Prop :=
  team_row data = Ok row.

(** ** Concrete inputs *)

Definition player (name : string) (pos : list string) (bid : Z)
  (team : string) : Player :=
  {| fullName := name; positions := Some pos; winningBid := bid;
     winningTeam := Some team; mlbTeam := None |}.

(** A player whose position list names the outfield twice. *)
Definition twice_listed : Player := player "Soto" ["OF"; "OF"] 10 "Duke".

Definition judge : Player := player "Judge" ["OF"; "DH"] 45 "Duke".
Definition olson : Player := player "Olson" ["1B"] 22 "Duke".
Definition webb : Player := player "Webb" ["SP"] 22 "Blue".
Definition bench : Player :=
  {| fullName := "Bench"; positions := None; winningBid := 3;
     winningTeam := None; mlbTeam := Some "CIN" |}.

Definition rooker : Player := player "Rooker" ["OF"] 15 "Blue".

Definition league : list Player := [olson; webb; judge; rooker; bench].

Definition duke_roster : list Player := [olson; judge].

(** A list in which nobody is priced 31 or above. *)
Definition modest : list Player := [olson; webb; rooker; bench].

(** The player object of the snapshot a drafted player comes from. *)
Definition obj (p : Player) : PlayerObj :=
  {| obj_fullName := fullName p; obj_positions := positions p;
     obj_status := Some "drafted"; obj_winningBid := Some (winningBid p);
     obj_winningTeam := winningTeam p; obj_mlbTeam := mlbTeam p |}.

Definition undrafted : PlayerObj :=
  {| obj_fullName := "Trout"; obj_positions := Some ["OF"];
     obj_status := Some "available"; obj_winningBid := None;
     obj_winningTeam := None; obj_mlbTeam := Some "LAA" |}.

Definition snapshot (objs : list PlayerObj) : AuctionData :=
  {| metadata := {| fetchedAt := "2025-03-01T00:00:00Z" |};
     data_players := objs |}.

Definition rate (q : Q) : InflationEntry := {| avgInflationRate := q |}.

Definition reference (tier price : list InflationEntry) : Historical :=
  {| aggregate :=
       {| avgOverallInflationRate := 12; stdDevInflationRate := 4;
          minInflationRate := 5; maxInflationRate := 20;
          aggregateTierInflation := tier;
          aggregatePriceRangeInflation := price;
          aggregatePositionInflation := [] |} |}.

(** A reference with every entry the program reads. *)
Definition full_reference : Historical :=
  reference [rate (-8); rate 3] [rate 30; rate 10; rate 2; rate (-5)].

(** A reference with only three price-range buckets. *)
Definition short_reference : Historical :=
  reference [rate (-8)] [rate 30; rate 10; rate 2].

(** A snapshot in which the target team has drafted nobody. *)
Definition no_duke_snapshot : AuctionData := snapshot [obj webb; undrafted].

(** A snapshot without any drafted player. *)
Definition no_draft_snapshot : AuctionData := snapshot [undrafted].

Definition league_snapshot : AuctionData :=
  snapshot [obj olson; undrafted; obj webb; obj judge; obj rooker; obj bench].

(** A drafted player who went for nothing. *)
Definition free_pick : Player := player "Pick" ["C"] 0 "Duke".

(** A target-team player whose object has no [positions] key. *)
Definition unlisted : Player :=
  {| fullName := "Mystery"; positions := None; winningBid := 7;
     winningTeam := Some "Duke"; mlbTeam := None |}.

Definition unlisted_snapshot : AuctionData :=
  snapshot [obj olson; obj unlisted; obj webb].

(** A snapshot in which every drafted player went for nothing. *)
Definition free_snapshot : AuctionData := snapshot [obj free_pick].

(** Two target-team players drafted at the same price. *)
Definition tied_snapshot : AuctionData :=
  snapshot [obj olson; obj judge; obj (player "Alonso" ["1B"] 22 "Duke")].

(** ** Proof automation *)

(** Decides every integer comparison of the goal that follows from the
    hypotheses by linear arithmetic. *)
Ltac decide_leb :=
  repeat match goal with
    | |- context [?a <=? ?b] =>
        first [ replace (a <=? b) with true by (symmetry; apply Z.leb_le; lia)
              | replace (a <=? b) with false by (symmetry; apply Z.leb_gt; lia) ]
    end.

(** Inverts a successful run of a sequence of binds: every step returned. *)
Ltac bind_inv H :=
  repeat match type of H with
    | bind ?c _ = Ok _ =>
        let E := fresh "E" in
        destruct c eqn:E; cbn [bind] in H; [|discriminate H]
    end.

(** * Properties *)

(** ** Sums *)

Lemma fold_add_shift (l : list Z) (a : Z) :
  fold_left Z.add l a = a + fold_left Z.add l 0.
Proof.
  revert a; induction l as [|x l IH]; intros a; simpl.
  - lia.
  - rewrite (IH (a + x)), (IH x). lia.
Qed.

Lemma sum_nil : sum [] = 0.
Proof. reflexivity. Qed.

Lemma sum_cons (x : Z) (l : list Z) : sum (x :: l) = x + sum l.
Proof. unfold sum; simpl. rewrite fold_add_shift. lia. Qed.

Lemma sum_app (l1 l2 : list Z) : sum (l1 ++ l2) = sum l1 + sum l2.
Proof.
  induction l1 as [|x l1 IH]; cbn [app].
  - rewrite sum_nil. lia.
  - rewrite !sum_cons, IH. lia.
Qed.

Lemma len_nil (A : Type) : len (@nil A) = 0.
Proof. reflexivity. Qed.

Lemma len_cons (A : Type) (x : A) (l : list A) : len (x :: l) = 1 + len l.
Proof. unfold len; simpl List.length. lia. Qed.

Lemma len_app (A : Type) (l1 l2 : list A) : len (l1 ++ l2) = len l1 + len l2.
Proof. unfold len. rewrite length_app. lia. Qed.

Lemma len_nonneg (A : Type) (l : list A) : 0 <= len l.
Proof. unfold len. lia. Qed.

(** ** Dictionaries *)

Section DictFacts.

Context {V : Type}.

Implicit Types (d : Dict.t V) (k : string) (v dflt : V) (f : V -> V).

Lemma get_update_eq dflt k f d :
  Dict.get k (Dict.update dflt k f d) = Some (f (Dict.get_or dflt k d)).
Proof.
  unfold Dict.get_or.
  induction d as [|[k' v] d IH]; simpl.
  - now rewrite String.eqb_refl.
  - destruct (String.eqb k k') eqn:E; simpl; rewrite E; auto.
Qed.

Lemma get_update_ne dflt k k' f d :
  k' <> k -> Dict.get k' (Dict.update dflt k f d) = Dict.get k' d.
Proof.
  intros Hne.
  induction d as [|[k0 v] d IH]; simpl.
  - apply String.eqb_neq in Hne. now rewrite Hne.
  - destruct (String.eqb k k0) eqn:E; simpl.
    + apply String.eqb_eq in E; subst k0.
      apply String.eqb_neq in Hne. now rewrite Hne.
    + now rewrite IH.
Qed.

Lemma get_None_keys k d : Dict.get k d = None <-> ~ In k (Dict.keys d).
Proof.
  induction d as [|[k' v] d IH]; simpl.
  - tauto.
  - destruct (String.eqb k k') eqn:E.
    + apply String.eqb_eq in E; subst. split; [discriminate | tauto].
    + apply String.eqb_neq in E. rewrite IH. split.
      * intros H [H1 | H1]; [congruence | tauto].
      * tauto.
Qed.

Lemma get_Some_In k v d : Dict.get k d = Some v -> In (k, v) d.
Proof.
  induction d as [|[k' v'] d IH]; simpl; [discriminate|].
  destruct (String.eqb k k') eqn:E.
  - apply String.eqb_eq in E; subst. intros [= ->]. now left.
  - auto.
Qed.

Lemma In_get_Some k v d :
  NoDup (Dict.keys d) -> In (k, v) d -> Dict.get k d = Some v.
Proof.
  induction d as [|[k' v'] d IH]; simpl; [tauto|].
  intros Hnd [H | H].
  - injection H as -> ->. now rewrite String.eqb_refl.
  - inversion Hnd as [|? ? Hnotin Hnd']; subst.
    destruct (String.eqb k k') eqn:E.
    + apply String.eqb_eq in E; subst. exfalso. apply Hnotin.
      change (In (fst (k', v)) (map fst d)). now apply in_map.
    + auto.
Qed.

Lemma keys_update dflt k f d :
  Dict.keys (Dict.update dflt k f d) =
  if Dict.contains k d then Dict.keys d else (Dict.keys d ++ [k])%list.
Proof.
  unfold Dict.contains.
  induction d as [|[k' v] d IH]; simpl; [reflexivity|].
  destruct (String.eqb k k') eqn:E; simpl; [reflexivity|].
  rewrite IH. now destruct (Dict.get k d).
Qed.

Lemma NoDup_snoc (A : Type) (l : list A) (x : A) :
  NoDup l -> ~ In x l -> NoDup (l ++ [x]).
Proof.
  intros Hnd Hnotin.
  apply (Permutation_NoDup (Permutation_cons_append l x)).
  now constructor.
Qed.

Lemma NoDup_keys_update dflt k f d :
  NoDup (Dict.keys d) -> NoDup (Dict.keys (Dict.update dflt k f d)).
Proof.
  intros Hnd. rewrite keys_update. unfold Dict.contains.
  destruct (Dict.get k d) eqn:E; [assumption|].
  apply NoDup_snoc; [assumption | now apply get_None_keys].
Qed.

Lemma set_fresh k v d :
  ~ In k (Dict.keys d) -> Dict.set k v d = (d ++ [(k, v)])%list.
Proof.
  unfold Dict.keys.
  induction d as [|[k' v'] d IH]; simpl; [reflexivity|].
  intros Hnotin. destruct (String.eqb k k') eqn:E.
  - apply String.eqb_eq in E. subst. tauto.
  - rewrite IH; [reflexivity | tauto].
Qed.

Lemma of_items_from (items acc : list (string * V)) :
  NoDup (map fst (acc ++ items)) ->
  fold_left (fun d kv => Dict.set (fst kv) (snd kv) d) items acc =
  (acc ++ items)%list.
Proof.
  revert acc; induction items as [|[k v] items IH]; intros acc Hnd; simpl.
  - now rewrite app_nil_r.
  - assert (Hfresh : ~ In k (Dict.keys acc)).
    { unfold Dict.keys. rewrite map_app in Hnd. simpl in Hnd.
      apply NoDup_remove_2 in Hnd. intros Hin. apply Hnd.
      apply in_or_app. now left. }
    rewrite set_fresh by assumption.
    rewrite IH; rewrite <- app_assoc; simpl; [reflexivity | assumption].
Qed.

Lemma of_items_nodup (items : list (string * V)) :
  NoDup (map fst items) -> Dict.of_items items = items.
Proof.
  intros Hnd. unfold Dict.of_items, Dict.empty.
  now rewrite of_items_from.
Qed.

End DictFacts.

Section DictMeasures.

Context {V : Type}.

Lemma sum_values_update (g : V -> Z) (dflt : V) (k : string) (f : V -> V)
  (d : Dict.t V) :
  g dflt = 0 ->
  sum (map g (Dict.values (Dict.update dflt k f d))) =
  sum (map g (Dict.values d))
  + g (f (Dict.get_or dflt k d)) - g (Dict.get_or dflt k d).
Proof.
  intros Hg. unfold Dict.get_or, Dict.values.
  induction d as [|[k' v] d IH]; simpl.
  - rewrite sum_cons, sum_nil, Hg. lia.
  - destruct (String.eqb k k') eqn:E; simpl; rewrite !sum_cons.
    + lia.
    + rewrite IH. lia.
Qed.

Lemma flat_values_update_snoc (A : Type) (g : V -> list A) (dflt : V)
  (k : string) (f : V -> V) (x : A) (d : Dict.t V) :
  g dflt = [] ->
  (forall v, g (f v) = (g v ++ [x])%list) ->
  Permutation (flat_map g (Dict.values (Dict.update dflt k f d)))
    (flat_map g (Dict.values d) ++ [x]).
Proof.
  intros Hd Hf. unfold Dict.values.
  induction d as [|[k' v] d IH]; simpl.
  - rewrite Hf, Hd. reflexivity.
  - destruct (String.eqb k k'); simpl.
    + rewrite Hf, <- !app_assoc. apply Permutation_app_head.
      simpl. apply Permutation_cons_append.
    + rewrite <- app_assoc. now apply Permutation_app_head.
Qed.

Lemma flat_values_update_keep (A : Type) (g : V -> list A) (dflt : V)
  (k : string) (f : V -> V) (d : Dict.t V) :
  g dflt = [] ->
  (forall v, g (f v) = g v) ->
  flat_map g (Dict.values (Dict.update dflt k f d)) =
  flat_map g (Dict.values d).
Proof.
  intros Hd Hf. unfold Dict.values.
  induction d as [|[k' v] d IH]; simpl.
  - now rewrite Hf, Hd.
  - destruct (String.eqb k k'); simpl.
    + now rewrite Hf.
    + now rewrite IH.
Qed.

End DictMeasures.

(** ** The team aggregator *)

Lemma analyze_teams_snoc (l : list Player) (p : Player) :
  analyze_teams (l ++ [p]) = analyze_teams_step (analyze_teams l) p.
Proof. unfold analyze_teams. now rewrite fold_left_app. Qed.

Lemma bids_app (l1 l2 : list Player) : bids (l1 ++ l2) = (bids l1 ++ bids l2)%list.
Proof. unfold bids. apply map_app. Qed.

Lemma analyze_teams_nodup (all_players : list Player) :
  NoDup (Dict.keys (analyze_teams all_players)).
Proof.
  induction all_players as [|p l IH] using rev_ind.
  - constructor.
  - rewrite analyze_teams_snoc. unfold analyze_teams_step.
    now do 2 apply NoDup_keys_update.
Qed.

(** The bucket stored under [team] holds, in input order, the players
    whose team key is [team], together with the sum of their bids. *)
Lemma analyze_teams_get (all_players : list Player) (team : string) :
  Dict.get team (analyze_teams all_players) =
  match filter (fun p => String.eqb (get_team p) team) all_players with
  | [] => None
  | ps => Some {| players := ps; total := sum (bids ps) |}
  end.
Proof.
  induction all_players as [|p l IH] using rev_ind.
  - reflexivity.
  - rewrite analyze_teams_snoc, filter_app. unfold analyze_teams_step.
    simpl filter. destruct (String.eqb (get_team p) team) eqn:E.
    + apply String.eqb_eq in E. subst team.
      rewrite get_update_eq. unfold Dict.get_or at 1.
      rewrite get_update_eq. unfold Dict.get_or. rewrite IH.
      destruct (filter _ l) as [|q ps] eqn:F; simpl.
      * reflexivity.
      * unfold add_total, append_player; simpl. f_equal. f_equal.
        rewrite !sum_cons, bids_app, sum_app.
        simpl bids. rewrite sum_cons, sum_nil. lia.
    + apply String.eqb_neq in E.
      rewrite !get_update_ne by congruence.
      rewrite IH, app_nil_r. reflexivity.
Qed.

Lemma analyze_teams_total (all_players : list Player) :
  sum (map total (Dict.values (analyze_teams all_players))) =
  sum (bids all_players).
Proof.
  induction all_players as [|p l IH] using rev_ind.
  - reflexivity.
  - rewrite analyze_teams_snoc, bids_app, sum_app. unfold analyze_teams_step.
    rewrite !sum_values_update by reflexivity. rewrite IH.
    unfold add_total, append_player; cbn [total bids map].
    rewrite sum_cons, sum_nil. lia.
Qed.

Lemma analyze_teams_players (all_players : list Player) :
  Permutation (flat_map players (Dict.values (analyze_teams all_players)))
    all_players.
Proof.
  induction all_players as [|p l IH] using rev_ind.
  - constructor.
  - rewrite analyze_teams_snoc. unfold analyze_teams_step.
    rewrite flat_values_update_keep by reflexivity.
    rewrite flat_values_update_snoc with (x := p) by reflexivity.
    now apply Permutation_app_tail.
Qed.

(** A player without a [winningTeam] field is grouped under "Unknown". *)
Lemma get_team_unknown (p : Player) :
  winningTeam p = None -> get_team p = "Unknown".
Proof. unfold get_team. now intros ->. Qed.

(** C9: the team aggregator puts every player in exactly one bucket, the
    one of its winning team ("Unknown" when the field is absent): the keys
    are pairwise distinct, the bucket of a team holds exactly the players
    of that team and their bid total, the buckets together are a
    rearrangement of the input, and the per-team totals add up to the sum
    of all winning bids. *)
Theorem analyze_teams_partition (all_players : list Player) :
  let teams := analyze_teams all_players in
  NoDup (Dict.keys teams)
  /\ Permutation (flat_map players (Dict.values teams)) all_players
  /\ (forall team data,
        In (team, data) teams ->
        players data =
          filter (fun p => String.eqb (get_team p) team) all_players
        /\ total data = sum (bids (players data)))
  /\ (forall p,
        In p all_players ->
        exists data,
          Dict.get (get_team p) teams = Some data /\ In p (players data))
  /\ (forall p,
        In p all_players ->
        winningTeam p = None ->
        exists data,
          Dict.get "Unknown" teams = Some data /\ In p (players data))
  /\ sum (map total (Dict.values teams)) = sum (bids all_players).
Proof.
  intros teams. subst teams.
  assert (Hbucket : forall p,
            In p all_players ->
            exists data,
              Dict.get (get_team p) (analyze_teams all_players) = Some data
              /\ In p (players data)).
  { intros p Hp. rewrite analyze_teams_get.
    assert (Hin : In p (filter (fun q => String.eqb (get_team q) (get_team p))
                          all_players)).
    { apply filter_In. split; [assumption | apply String.eqb_refl]. }
    destruct (filter _ all_players) as [|q ps]; [contradiction|].
    eexists. split; [reflexivity | exact Hin]. }
  split; [apply analyze_teams_nodup|].
  split; [apply analyze_teams_players|].
  split.
  { intros team data Hin.
    apply In_get_Some in Hin; [|apply analyze_teams_nodup].
    rewrite analyze_teams_get in Hin.
    destruct (filter _ all_players) as [|q ps]; [discriminate|].
    injection Hin as <-. simpl. auto. }
  split; [exact Hbucket|].
  split; [|apply analyze_teams_total].
  intros p Hp Hnone. rewrite <- (get_team_unknown p Hnone).
  now apply Hbucket.
Qed.

(** ** Comprehensions whose body may raise *)

Lemma mapM_ok (A B : Type) (f : A -> result B) (R : A -> B -> Prop)
  (l : list A) :
  (forall x, In x l -> exists y, f x = Ok y /\ R x y) ->
  exists ys, mapM f l = Ok ys /\ Forall2 R l ys.
Proof.
  induction l as [|x l IH]; intros H; simpl.
  - exists []. split; [reflexivity | constructor].
  - destruct (H x (or_introl eq_refl)) as (y & Hy & Hr).
    destruct IH as (ys & Hys & Hall); [intros; apply H; now right|].
    exists (y :: ys). rewrite Hy, Hys. simpl. split; [reflexivity|].
    now constructor.
Qed.

Section MapItems.

Context {V W : Type} (f : string -> V -> result W).

Lemma item_rel_keys (R : string -> V -> W -> Prop) (d : Dict.t V)
  (out : Dict.t W) :
  Forall2 (item_rel R) d out -> Dict.keys out = Dict.keys d.
Proof.
  unfold Dict.keys. induction 1 as [|kv kw d out [Hk _] _ IH]; simpl.
  - reflexivity.
  - now rewrite Hk, IH.
Qed.

Lemma item_rel_get (R : string -> V -> W -> Prop) (d : Dict.t V)
  (out : Dict.t W) (k : string) (w : W) :
  Forall2 (item_rel R) d out ->
  Dict.get k out = Some w ->
  exists v, Dict.get k d = Some v /\ R k v w.
Proof.
  induction 1 as [|[k1 v1] [k2 w2] d out [Hk Hr] _ IH]; simpl.
  - discriminate.
  - simpl in Hk, Hr. subst k2.
    destruct (String.eqb k k1) eqn:E.
    + apply String.eqb_eq in E. subst k1. intros [= ->]. now exists v1.
    + exact IH.
Qed.

Lemma item_rel_get_inv (R : string -> V -> W -> Prop) (d : Dict.t V)
  (out : Dict.t W) (k : string) (v : V) :
  Forall2 (item_rel R) d out ->
  Dict.get k d = Some v ->
  exists w, Dict.get k out = Some w /\ R k v w.
Proof.
  induction 1 as [|[k1 v1] [k2 w2] d out [Hk Hr] _ IH]; simpl.
  - discriminate.
  - simpl in Hk, Hr. subst k2.
    destruct (String.eqb k k1) eqn:E.
    + apply String.eqb_eq in E. subst k1. intros [= ->]. now exists w2.
    + exact IH.
Qed.

(** A comprehension over the items of a dictionary whose body succeeds on
    every item yields a dictionary with the same keys in the same order. *)
Lemma map_items_ok (R : string -> V -> W -> Prop) (d : Dict.t V) :
  NoDup (Dict.keys d) ->
  (forall k v, In (k, v) d -> exists w, f k v = Ok w /\ R k v w) ->
  exists out,
    Dict.map_items f d = Ok out /\ Forall2 (item_rel R) d out.
Proof.
  intros Hnd H. unfold Dict.map_items.
  destruct (mapM_ok _ _
              (fun kv => w <- f (fst kv) (snd kv) ;; Ok (fst kv, w))
              (item_rel R) d) as (items & Hitems & Hall).
  { intros [k v] Hin. destruct (H k v Hin) as (w & Hw & Hr).
    exists (k, w). simpl. rewrite Hw. simpl. split; [reflexivity|].
    split; [reflexivity | exact Hr]. }
  exists items. rewrite Hitems. simpl. split; [|exact Hall].
  rewrite of_items_nodup; [reflexivity|].
  change (NoDup (Dict.keys items)).
  now rewrite (item_rel_keys _ _ _ Hall).
Qed.

End MapItems.

(** ** The position aggregator *)

Lemma position_step_get_eq (p : Player) (stats : Dict.t PositionAcc.t)
  (pos : string) :
  Dict.get pos (position_step p stats pos) =
  Some (record_bids [winningBid p] (Dict.get_or new_position pos stats)).
Proof.
  unfold position_step. rewrite get_update_eq.
  unfold Dict.get_or at 1. rewrite get_update_eq. reflexivity.
Qed.

Lemma position_step_get_ne (p : Player) (stats : Dict.t PositionAcc.t)
  (pos q : string) :
  pos <> q ->
  Dict.get pos (position_step p stats q) = Dict.get pos stats.
Proof.
  intros Hne. unfold position_step. now rewrite !get_update_ne.
Qed.

Lemma record_bids_cons (b : Z) (occ : list Z) (a : PositionAcc.t) :
  record_bids occ (record_bids [b] a) = record_bids (b :: occ) a.
Proof.
  unfold record_bids; cbn [PositionAcc.bids PositionAcc.count].
  rewrite <- app_assoc. cbn [app].
  f_equal. rewrite (len_cons _ b occ). change (len [b]) with 1. lia.
Qed.

(** One player's fan-out: the bucket of [pos] receives the player's bid
    once per occurrence of [pos] in the position list. *)
Lemma fan_out_get (p : Player) (pos : string) (ps : list string)
  (stats : Dict.t PositionAcc.t) :
  Dict.get pos (fold_left (position_step p) ps stats) =
  match map (fun _ : string => winningBid p) (filter (String.eqb pos) ps) with
  | [] => Dict.get pos stats
  | occ => Some (record_bids occ (Dict.get_or new_position pos stats))
  end.
Proof.
  revert stats. induction ps as [|q ps IH]; intros stats; simpl.
  - reflexivity.
  - rewrite IH. destruct (String.eqb pos q) eqn:E; simpl.
    + apply String.eqb_eq in E. subst q.
      unfold Dict.get_or at 1. rewrite position_step_get_eq.
      destruct (map _ (filter _ ps)); [reflexivity|].
      now rewrite record_bids_cons.
    + apply String.eqb_neq in E. unfold Dict.get_or.
      now rewrite position_step_get_ne.
Qed.

Lemma position_stats_snoc (l : list Player) (p : Player) :
  position_stats (l ++ [p]) =
  fold_left (position_step p) (get_positions p) (position_stats l).
Proof. unfold position_stats. now rewrite fold_left_app. Qed.

Lemma bids_at_snoc (pos : string) (l : list Player) (p : Player) :
  bids_at pos (l ++ [p]) =
  (bids_at pos l ++
   map (fun _ => winningBid p) (filter (String.eqb pos) (get_positions p)))%list.
Proof. unfold bids_at. rewrite flat_map_app. simpl. now rewrite app_nil_r. Qed.

(** The accumulator of [pos] holds exactly the bids observed at [pos], in
    input order, and their number. *)
Lemma position_stats_get (players : list Player) (pos : string) :
  Dict.get pos (position_stats players) =
  match bids_at pos players with
  | [] => None
  | bs => Some {| PositionAcc.bids := bs; PositionAcc.count := len bs |}
  end.
Proof.
  induction players as [|p l IH] using rev_ind.
  - reflexivity.
  - rewrite position_stats_snoc, fan_out_get, bids_at_snoc.
    unfold Dict.get_or. rewrite IH.
    destruct (map _ (filter _ (get_positions p))) as [|b occ].
    + now rewrite app_nil_r.
    + destruct (bids_at pos l) as [|b0 bs]; unfold record_bids, new_position;
        cbn [PositionAcc.bids PositionAcc.count app].
      * reflexivity.
      * f_equal. f_equal.
        rewrite (len_cons _ b0 bs), (len_cons _ b0 (bs ++ b :: occ)), len_app.
        lia.
Qed.

Lemma fan_out_nodup (p : Player) (ps : list string)
  (stats : Dict.t PositionAcc.t) :
  NoDup (Dict.keys stats) ->
  NoDup (Dict.keys (fold_left (position_step p) ps stats)).
Proof.
  revert stats. induction ps as [|q ps IH]; intros stats Hnd; simpl.
  - assumption.
  - apply IH. unfold position_step. now do 2 apply NoDup_keys_update.
Qed.

Lemma position_stats_nodup (players : list Player) :
  NoDup (Dict.keys (position_stats players)).
Proof.
  induction players as [|p l IH] using rev_ind.
  - constructor.
  - rewrite position_stats_snoc. now apply fan_out_nodup.
Qed.

Lemma insert_by_length (A : Type) (key : A -> Z) (reverse : bool) (x : A)
  (l : list A) :
  List.length (insert_by key reverse x l) = S (List.length l).
Proof.
  induction l as [|y l IH]; simpl; [reflexivity|].
  destruct (if reverse then _ else _); simpl; [reflexivity | now rewrite IH].
Qed.

Lemma sorted_length (A : Type) (key : A -> Z) (reverse : bool) (l : list A) :
  List.length (sorted key reverse l) = List.length l.
Proof.
  induction l as [|x l IH]; simpl; [reflexivity|].
  now rewrite insert_by_length, IH.
Qed.

Lemma mean_ok (data : list Z) :
  data <> [] -> exists q, mean data = Ok q.
Proof. destruct data; [congruence | intros _; eexists; reflexivity]. Qed.

Lemma median_ok (data : list Z) :
  data <> [] -> exists q, median data = Ok q.
Proof.
  intros Hne. unfold median. rewrite sorted_length.
  destruct data as [|x l]; [congruence|]. simpl List.length.
  cbv zeta. destruct (Nat.odd (S (List.length l))); eexists; reflexivity.
Qed.

(** The summary of a non-empty accumulator never raises. *)
Lemma position_summary_ok (a : PositionAcc.t) :
  PositionAcc.bids a <> [] ->
  exists st, position_summary a = Ok st /\ summarises a st.
Proof.
  intros Hne. unfold position_summary, summarises.
  destruct (mean_ok _ Hne) as (avg & Havg).
  destruct (median_ok _ Hne) as (med & Hmed).
  rewrite Havg, Hmed. cbn [bind].
  destruct (PositionAcc.bids a) as [|b bs] eqn:E; [congruence|].
  cbn [max_ min_ bind]. unfold stdev.
  destruct (1 <? len (b :: bs)) eqn:L.
  - assert (H2 : (len (b :: bs) <? 2) = false)
      by (apply Z.ltb_ge; apply Z.ltb_lt in L; lia).
    rewrite H2. cbn [bind]. eexists. split; [reflexivity|].
    cbn [PositionStats.count PositionStats.totalSpent PositionStats.avgBid
         PositionStats.medianBid PositionStats.maxBid PositionStats.minBid
         PositionStats.stdDev].
    repeat split; reflexivity.
  - cbn [bind]. eexists. split; [reflexivity|].
    cbn [PositionStats.count PositionStats.totalSpent PositionStats.avgBid
         PositionStats.medianBid PositionStats.maxBid PositionStats.minBid
         PositionStats.stdDev].
    repeat split; reflexivity.
Qed.

Lemma position_stats_nonempty (players : list Player) (pos : string)
  (a : PositionAcc.t) :
  In (pos, a) (position_stats players) ->
  a = {| PositionAcc.bids := bids_at pos players;
         PositionAcc.count := len (bids_at pos players) |}
  /\ bids_at pos players <> [].
Proof.
  intros Hin. apply In_get_Some in Hin; [|apply position_stats_nodup].
  rewrite position_stats_get in Hin.
  destruct (bids_at pos players); [discriminate|].
  injection Hin as <-. split; [reflexivity | discriminate].
Qed.

(** The position aggregator never raises; its output has one row per
    position observed, computed from the bids observed at that position. *)
Lemma analyze_positions_ok (players : list Player) :
  exists out,
    analyze_positions players = Ok out
    /\ Forall2 (item_rel (fun _ => summarises)) (position_stats players) out.
Proof.
  unfold analyze_positions. apply map_items_ok.
  - apply position_stats_nodup.
  - intros pos a Hin. apply position_summary_ok.
    destruct (position_stats_nonempty _ _ _ Hin) as [-> Hne]. exact Hne.
Qed.

Lemma analyze_positions_get (players : list Player)
  (out : Dict.t PositionStats.t) (pos : string) (st : PositionStats.t) :
  analyze_positions players = Ok out ->
  Dict.get pos out = Some st ->
  bids_at pos players <> []
  /\ summarises {| PositionAcc.bids := bids_at pos players;
                   PositionAcc.count := len (bids_at pos players) |} st.
Proof.
  intros Hout Hget.
  destruct (analyze_positions_ok players) as (out' & Hout' & Hall).
  rewrite Hout in Hout'. injection Hout' as <-.
  destruct (item_rel_get _ _ _ _ _ Hall Hget) as (a & Ha & Hsum).
  apply get_Some_In in Ha.
  destruct (position_stats_nonempty _ _ _ Ha) as [-> Hne]. auto.
Qed.

Lemma analyze_positions_keys (players : list Player)
  (out : Dict.t PositionStats.t) :
  analyze_positions players = Ok out ->
  Dict.keys out = Dict.keys (position_stats players).
Proof.
  intros Hout.
  destruct (analyze_positions_ok players) as (out' & Hout' & Hall).
  rewrite Hout in Hout'. injection Hout' as <-.
  now apply item_rel_keys in Hall.
Qed.

Lemma filter_none (A : Type) (f : A -> bool) (l : list A) :
  (forall x, In x l -> f x = false) -> filter f l = [].
Proof.
  induction l as [|x l IH]; intros H; simpl; [reflexivity|].
  rewrite (H x (or_introl eq_refl)). apply IH. intros; apply H; now right.
Qed.

Lemma sum_const (A : Type) (b : Z) (l : list A) :
  sum (map (fun _ => b) l) = b * len l.
Proof.
  induction l as [|x l IH]; cbn [map].
  - rewrite sum_nil, len_nil. lia.
  - rewrite sum_cons, len_cons, IH. lia.
Qed.

Lemma sum_bids_at (pos : string) (players : list Player) :
  sum (bids_at pos players) =
  sum (map (fun p => winningBid p * occurrences pos p) players).
Proof.
  unfold bids_at, occurrences.
  induction players as [|p l IH]; cbn [flat_map map].
  - reflexivity.
  - rewrite sum_app, sum_cons, IH, sum_const. reflexivity.
Qed.

Lemma occurrences_nodup (pos : string) (p : Player) :
  NoDup (get_positions p) ->
  occurrences pos p = if eligible pos p then 1 else 0.
Proof.
  unfold occurrences, eligible.
  induction (get_positions p) as [|q l IH]; intros Hnd; cbn [filter existsb].
  - reflexivity.
  - inversion Hnd as [|? ? Hnotin Hnd']; subst.
    destruct (String.eqb pos q) eqn:E; cbn [orb].
    + apply String.eqb_eq in E. subst q.
      rewrite (filter_none _ (String.eqb pos) l); [reflexivity|].
      intros x Hx. apply String.eqb_neq. intros ->. contradiction.
    + now apply IH.
Qed.

Lemma sum_occurrences_nodup (pos : string) (players : list Player) :
  (forall p, In p players -> NoDup (get_positions p)) ->
  sum (map (fun p => winningBid p * occurrences pos p) players) =
  sum (bids (filter (eligible pos) players)).
Proof.
  induction players as [|p l IH]; intros Hnd; cbn [map filter].
  - reflexivity.
  - rewrite sum_cons, IH by (intros; apply Hnd; now right).
    rewrite occurrences_nodup by (apply Hnd; now left).
    destruct (eligible pos p); unfold bids; cbn [map].
    + rewrite sum_cons. unfold bids. lia.
    + unfold bids. lia.
Qed.

(** C5 (as amended): the position aggregator never raises, and the
    [totalSpent] of every position in its output is the sum of the winning
    bids of the input players, each counted once per occurrence of the
    position code in the player's position list.  When no player lists a
    position code twice, this is the sum of [winningBid] over exactly the
    players whose position list contains the code. *)
Theorem totalSpent_per_listing (players : list Player) :
  exists out,
    analyze_positions players = Ok out
    /\ forall pos st,
         Dict.get pos out = Some st ->
         PositionStats.totalSpent st =
           sum (map (fun p => winningBid p * occurrences pos p) players)
         /\ ((forall p, In p players -> NoDup (get_positions p)) ->
             PositionStats.totalSpent st =
               sum (bids (filter (eligible pos) players))).
Proof.
  destruct (analyze_positions_ok players) as (out & Hout & _).
  exists out. split; [exact Hout|].
  intros pos st Hget.
  destruct (analyze_positions_get _ _ _ _ Hout Hget) as (_ & Hsum).
  destruct Hsum as (_ & Htot & _). cbn [PositionAcc.bids] in Htot.
  rewrite Htot, sum_bids_at. split; [reflexivity|].
  intros Hnd. now apply sum_occurrences_nodup.
Qed.

(** C5 (as stated) fails: a player whose position list names a position
    twice is counted twice in that position's [totalSpent]. *)
Lemma totalSpent_counts_repeats :
  ~ (forall players out pos st,
       analyze_positions players = Ok out ->
       Dict.get pos out = Some st ->
       PositionStats.totalSpent st =
         sum (bids (filter (eligible pos) players))).
Proof.
  intros H.
  destruct (analyze_positions [twice_listed]) as [out|e] eqn:E;
    vm_compute in E; [|discriminate].
  injection E as <-.
  specialize (H [twice_listed] _ "OF" _ ltac:(vm_compute; reflexivity)
                eq_refl).
  vm_compute in H. discriminate.
Qed.

(** C7: the position aggregator never raises, and a position bucket that
    holds fewer than two bid observations reports a [stdDev] of exactly
    0; [count] is the number of observations. *)
Theorem stdDev_zero_below_two (players : list Player) :
  exists out,
    analyze_positions players = Ok out
    /\ forall pos st,
         Dict.get pos out = Some st ->
         PositionStats.count st = len (bids_at pos players)
         /\ (PositionStats.count st < 2 ->
             PositionStats.stdDev st = Exact 0).
Proof.
  destruct (analyze_positions_ok players) as (out & Hout & _).
  exists out. split; [exact Hout|].
  intros pos st Hget.
  destruct (analyze_positions_get _ _ _ _ Hout Hget) as (_ & Hsum).
  destruct Hsum as (Hcount & _ & _ & _ & _ & _ & Hsd).
  cbn [PositionAcc.bids PositionAcc.count] in Hcount, Hsd.
  split; [exact Hcount|].
  intros Hlt. rewrite Hsd.
  destruct (1 <? len (bids_at pos players)) eqn:L; [|reflexivity].
  apply Z.ltb_lt in L. lia.
Qed.

(** ** The price-tier aggregator *)

Lemma existsb_filter_nonempty (A : Type) (f : A -> bool) (l : list A) :
  existsb f l = true -> filter f l <> [].
Proof.
  induction l as [|x l IH]; simpl; [discriminate|].
  destruct (f x); [discriminate | exact IH].
Qed.

Lemma existsb_false_filter (A : Type) (f : A -> bool) (l : list A) :
  existsb f l = false -> filter f l = [].
Proof.
  induction l as [|x l IH]; simpl; [reflexivity|].
  destruct (f x); [discriminate | exact IH].
Qed.

Lemma Zq_nonzero (z : Z) : 0 < z -> Qeq_bool (Zq z) 0 = false.
Proof.
  intros Hz. destruct (Qeq_bool (Zq z) 0) eqn:E; [|reflexivity].
  apply Qeq_bool_iff in E. unfold Zq, Qeq in E. simpl in E. lia.
Qed.

Lemma truediv_pos (a : Q) (z : Z) :
  0 < z -> truediv a (Zq z) = Ok (a / Zq z)%Q.
Proof. intros Hz. unfold truediv. now rewrite Zq_nonzero. Qed.

(** The body of the tier comprehension never raises. *)
Lemma tier_entry_ok (players : list Player) (min_p max_p : Z) :
  let total_spent := sum (bids players) in
  let members := filter (in_tier min_p max_p) players in
  exists e,
    tier_entry players total_spent min_p max_p = Ok e
    /\ TierStats.count e = len members
    /\ TierStats.totalSpent e = sum (bids members)
    /\ TierStats.percentOfTotal e =
         (if 0 <? total_spent
          then (Zq (sum (bids members)) / Zq total_spent * 100)%Q
          else 0%Q).
Proof.
  intros total_spent members. unfold tier_entry. fold members.
  assert (Hpct :
    (if 0 <? total_spent then
       q <- truediv (Zq (sum (bids members))) (Zq total_spent) ;;
       Ok (q * 100)%Q
     else Ok 0%Q) =
    Ok (if 0 <? total_spent
        then (Zq (sum (bids members)) / Zq total_spent * 100)%Q
        else 0%Q)).
  { destruct (0 <? total_spent) eqn:T; [|reflexivity].
    apply Z.ltb_lt in T. now rewrite truediv_pos. }
  rewrite Hpct. cbn [bind].
  destruct (existsb (in_tier min_p max_p) players) eqn:X.
  - destruct (mean_ok (bids members)) as (avg & Havg).
    { apply existsb_filter_nonempty in X. fold members in X.
      unfold bids. destruct members; [congruence | discriminate]. }
    rewrite Havg. cbn [bind]. eexists. split; [reflexivity|].
    cbn [TierStats.count TierStats.totalSpent TierStats.percentOfTotal].
    repeat split; reflexivity.
  - cbn [bind]. eexists. split; [reflexivity|].
    cbn [TierStats.count TierStats.totalSpent TierStats.percentOfTotal].
    repeat split; reflexivity.
Qed.

Lemma NoDup_map_filter (A B : Type) (f : A -> B) (g : A -> bool)
  (l : list A) :
  NoDup (map f l) -> NoDup (map f (filter g l)).
Proof.
  induction l as [|x l IH]; simpl; intros Hnd; [constructor|].
  inversion Hnd as [|? ? Hnotin Hnd']; subst.
  destruct (g x); simpl; [|auto].
  constructor; [|auto].
  intros Hin. apply Hnotin. apply in_map_iff in Hin.
  destruct Hin as (y & Hy & Hin). apply filter_In in Hin.
  apply in_map_iff. exists y. tauto.
Qed.

Lemma tier_labels_nodup : NoDup (map tier_label tiers).
Proof.
  unfold tiers; cbn [map tier_label snd].
  repeat constructor; cbn [In]; intuition discriminate.
Qed.

Lemma tier_rel_keys (players : list Player) (ts : list (Z * Z * string))
  (out : Dict.t TierStats.t) :
  Forall2 (tier_rel players) ts out -> Dict.keys out = map tier_label ts.
Proof.
  unfold Dict.keys. induction 1 as [|t kv ts out [Hk _] _ IH]; simpl.
  - reflexivity.
  - now rewrite Hk, IH.
Qed.

(** The price-tier aggregator never raises; its output has one item per
    tier with at least one member, in table order. *)
Lemma analyze_price_tiers_ok (players : list Player) :
  exists out,
    analyze_price_tiers players = Ok out
    /\ Forall2 (tier_rel players) (filter (tier_emitted players) tiers) out.
Proof.
  unfold analyze_price_tiers.
  destruct (mapM_ok _ _
    (fun t : Z * Z * string =>
       let '(min_p, max_p, label) := t in
       e <- tier_entry players (sum (bids players)) min_p max_p ;;
       Ok (label, e))
    (tier_rel players)
    (filter (tier_emitted players) tiers)) as (items & Hitems & Hall).
  { intros [[min_p max_p] label] _.
    destruct (tier_entry_ok players min_p max_p) as (e & He & _).
    exists (label, e). rewrite He. cbn [bind]. split; [reflexivity|].
    split; [reflexivity | exact He]. }
  exists items. split; [|exact Hall].
  replace (filter _ tiers) with (filter (tier_emitted players) tiers).
  - rewrite Hitems. cbn [bind]. rewrite of_items_nodup; [reflexivity|].
    change (NoDup (Dict.keys items)).
    rewrite (tier_rel_keys _ _ _ Hall).
    apply NoDup_map_filter, tier_labels_nodup.
  - apply filter_ext. now intros [[min_p max_p] label].
Qed.

Lemma Forall2_In_r (A B : Type) (R : A -> B -> Prop) (l : list A)
  (l' : list B) (y : B) :
  Forall2 R l l' -> In y l' -> exists x, In x l /\ R x y.
Proof.
  induction 1 as [|x y' l l' Hr _ IH]; simpl; [tauto|].
  intros [<- | Hin].
  - exists x. auto.
  - destruct (IH Hin) as (x' & Hx & Hr'). exists x'. auto.
Qed.

Lemma Forall2_map_eq (A B C : Type) (R : A -> B -> Prop) (g : B -> C)
  (h : A -> C) (l : list A) (l' : list B) :
  (forall x y, R x y -> g y = h x) ->
  Forall2 R l l' -> map g l' = map h l.
Proof.
  intros Hgh. induction 1 as [|x y l l' Hr _ IH]; simpl; [reflexivity|].
  now rewrite (Hgh _ _ Hr), IH.
Qed.

Lemma sum_map_filter (A : Type) (f : A -> bool) (g : A -> Z) (l : list A) :
  (forall x, f x = false -> g x = 0) ->
  sum (map g (filter f l)) = sum (map g l).
Proof.
  intros H. induction l as [|x l IH]; cbn [filter map]; [reflexivity|].
  destruct (f x) eqn:E; cbn [map]; rewrite !sum_cons, ?IH.
  - reflexivity.
  - rewrite (H x E). lia.
Qed.

Lemma sum_map_add (A : Type) (f g : A -> Z) (l : list A) :
  sum (map (fun x => f x + g x) l) = sum (map f l) + sum (map g l).
Proof.
  induction l as [|x l IH]; cbn [map]; [reflexivity|].
  rewrite !sum_cons, IH. lia.
Qed.

Lemma sum_map_scale (A : Type) (b : Z) (f : A -> Z) (l : list A) :
  sum (map (fun x => b * f x) l) = b * sum (map f l).
Proof.
  induction l as [|x l IH]; cbn [map].
  - rewrite sum_nil. lia.
  - rewrite !sum_cons, IH. lia.
Qed.

(** A bid between 1 and 999 lies in exactly one of the six bands. *)
Lemma tier_cover (p : Player) :
  1 <= winningBid p <= 999 -> sum (map (tier_hit p) tiers) = 1.
Proof.
  intros Hb. unfold tiers, tier_hit, in_tier, sum.
  cbn [map fst snd fold_left].
  assert (H : winningBid p <= 5 \/ 6 <= winningBid p <= 10
              \/ 11 <= winningBid p <= 15 \/ 16 <= winningBid p <= 20
              \/ 21 <= winningBid p <= 30 \/ 31 <= winningBid p) by lia.
  destruct H as [H | [H | [H | [H | [H | H]]]]]; decide_leb; reflexivity.
Qed.

(** A bid outside 1..999 lies in none of the six bands. *)
Lemma tier_gap (p : Player) :
  winningBid p < 1 \/ 999 < winningBid p -> sum (map (tier_hit p) tiers) = 0.
Proof.
  intros Hb. unfold tiers, tier_hit, in_tier, sum.
  cbn [map fst snd fold_left].
  destruct Hb as [H | H]; decide_leb; reflexivity.
Qed.

Lemma tier_members_cons_len (p : Player) (l : list Player)
  (t : Z * Z * string) :
  len (tier_members (p :: l) t) = tier_hit p t + len (tier_members l t).
Proof.
  unfold tier_members, tier_hit. cbn [filter].
  destruct (in_tier _ _ p); [apply len_cons | lia].
Qed.

Lemma tier_members_cons_sum (p : Player) (l : list Player)
  (t : Z * Z * string) :
  sum (bids (tier_members (p :: l) t)) =
  winningBid p * tier_hit p t + sum (bids (tier_members l t)).
Proof.
  unfold tier_members, tier_hit, bids. cbn [filter].
  destruct (in_tier _ _ p); cbn [map]; rewrite ?sum_cons; lia.
Qed.

(** The member counts of the six tiers add up to the number of players
    whose bid is between 1 and 999. *)
Lemma tier_counts_total (players : list Player) :
  (forall p, In p players -> 1 <= winningBid p <= 999) ->
  sum (map (fun t => len (tier_members players t)) tiers) = len players.
Proof.
  induction players as [|p l IH]; intros Hb.
  - reflexivity.
  - rewrite (map_ext _ _ (tier_members_cons_len p l)), sum_map_add.
    rewrite tier_cover by (apply Hb; now left).
    rewrite IH by (intros; apply Hb; now right).
    now rewrite len_cons.
Qed.

(** The spend of the six tiers adds up to the total spend when every bid
    is between 0 and 999. *)
Lemma tier_spend_total (players : list Player) :
  (forall p, In p players -> 0 <= winningBid p <= 999) ->
  sum (map (fun t => sum (bids (tier_members players t))) tiers) =
  sum (bids players).
Proof.
  induction players as [|p l IH]; intros Hb.
  - reflexivity.
  - rewrite (map_ext _ _ (tier_members_cons_sum p l)), sum_map_add.
    rewrite sum_map_scale.
    rewrite IH by (intros; apply Hb; now right).
    unfold bids at 2. cbn [map]. rewrite sum_cons. fold (bids l).
    assert (Hp := Hb p (or_introl eq_refl)).
    destruct (Z.eq_dec (winningBid p) 0) as [E | E].
    + rewrite E. lia.
    + rewrite tier_cover by lia. lia.
Qed.

Lemma tier_rel_stats (players : list Player) (t : Z * Z * string)
  (kv : string * TierStats.t) :
  tier_rel players t kv ->
  TierStats.count (snd kv) = len (tier_members players t)
  /\ TierStats.totalSpent (snd kv) = sum (bids (tier_members players t))
  /\ TierStats.percentOfTotal (snd kv) =
       (if 0 <? sum (bids players)
        then (Zq (sum (bids (tier_members players t)))
              / Zq (sum (bids players)) * 100)%Q
        else 0%Q).
Proof.
  intros [_ He].
  destruct (tier_entry_ok players (fst (fst t)) (snd (fst t)))
    as (e & He' & Hc & Hs & Hp).
  rewrite He in He'. injection He' as <-. auto.
Qed.

Lemma tier_not_emitted (players : list Player) (t : Z * Z * string) :
  tier_emitted players t = false -> tier_members players t = [].
Proof. apply existsb_false_filter. Qed.

Lemma tier_counts_emitted (players : list Player)
  (out : Dict.t TierStats.t) :
  Forall2 (tier_rel players) (filter (tier_emitted players) tiers) out ->
  sum (map TierStats.count (Dict.values out)) =
  sum (map (fun t => len (tier_members players t)) tiers).
Proof.
  intros Hall. unfold Dict.values. rewrite map_map.
  rewrite (Forall2_map_eq _ _ _ (tier_rel players)
             (fun kv => TierStats.count (snd kv))
             (fun t => len (tier_members players t)) _ _
             (fun t kv H => proj1 (tier_rel_stats players t kv H)) Hall).
  apply sum_map_filter. intros t Ht.
  now rewrite (tier_not_emitted _ _ Ht).
Qed.

(** C2 (as amended): for every list of drafted players whose winning bids
    all lie between 1 and 999, the price-tier aggregator returns and the
    member counts of the tiers in its output add up to the number of
    players. *)
Theorem tier_counts_partition (players : list Player) :
  (forall p, In p players -> 1 <= winningBid p <= 999) ->
  exists out,
    analyze_price_tiers players = Ok out
    /\ sum (map TierStats.count (Dict.values out)) = len players.
Proof.
  intros Hb.
  destruct (analyze_price_tiers_ok players) as (out & Hout & Hall).
  exists out. split; [exact Hout|].
  rewrite (tier_counts_emitted _ _ Hall). now apply tier_counts_total.
Qed.

(** C2 (as stated) fails: a drafted player with a winning bid of 0 falls in
    none of the six bands, which start at 1. *)
Lemma tier_counts_miss_zero_bid :
  ~ (forall players out,
       players <> [] ->
       (forall p, In p players -> 0 <= winningBid p) ->
       analyze_price_tiers players = Ok out ->
       sum (map TierStats.count (Dict.values out)) = len players).
Proof.
  intros H.
  specialize (H [free_pick] [] ltac:(discriminate)).
  assert (Hb : forall p, In p [free_pick] -> 0 <= winningBid p).
  { intros p [<- | []]. vm_compute. discriminate. }
  specialize (H Hb eq_refl). vm_compute in H. discriminate.
Qed.





Lemma NoDup_map_inj (A B : Type) (f : A -> B) (l : list A) (x y : A) :
  NoDup (map f l) -> In x l -> In y l -> f x = f y -> x = y.
Proof.
  induction l as [|z l IH]; simpl; [tauto|].
  intros Hnd Hx Hy E. inversion Hnd as [|? ? Hnotin Hnd']; subst.
  destruct Hx as [-> | Hx], Hy as [-> | Hy]; auto.
  - exfalso. apply Hnotin. rewrite E. now apply in_map.
  - exfalso. apply Hnotin. rewrite <- E. now apply in_map.
Qed.

Lemma len_zero_nil (A : Type) (l : list A) : len l = 0 -> l = [].
Proof. destruct l; [reflexivity | rewrite len_cons; pose proof (len_nonneg _ l); lia]. Qed.

(** A tier without members has no key in the output. *)
Lemma tier_absent (players : list Player) (out : Dict.t TierStats.t)
  (t : Z * Z * string) :
  Forall2 (tier_rel players) (filter (tier_emitted players) tiers) out ->
  In t tiers ->
  tier_members players t = [] ->
  ~ In (tier_label t) (Dict.keys out).
Proof.
  intros Hall Ht Hnil Hin.
  rewrite (tier_rel_keys _ _ _ Hall) in Hin.
  apply in_map_iff in Hin. destruct Hin as (t' & Hlabel & Hin').
  apply filter_In in Hin'. destruct Hin' as [Ht' Hemit].
  assert (t' = t)
    by (apply (NoDup_map_inj _ _ tier_label tiers);
        auto using tier_labels_nodup).
  subst t'. apply existsb_filter_nonempty in Hemit.
  unfold tier_members in Hnil. contradiction.
Qed.

(** C6: the price-tier aggregator returns, and a tier containing none of
    the players has no key at all in its output (every row present counts
    at least one player); in particular, when no player is priced 31 or
    above the output has no "Elite ($31+)" key. *)
Theorem empty_tiers_omitted (players : list Player) :
  exists out,
    analyze_price_tiers players = Ok out
    /\ (forall min_p max_p label,
          In (min_p, max_p, label) tiers ->
          len (filter (in_tier min_p max_p) players) = 0 ->
          ~ In label (Dict.keys out) /\ Dict.get label out = None)
    /\ (forall label e,
          Dict.get label out = Some e -> 0 < TierStats.count e)
    /\ ((forall p, In p players -> winningBid p < 31) ->
        ~ In "Elite ($31+)" (Dict.keys out)).
Proof.
  destruct (analyze_price_tiers_ok players) as (out & Hout & Hall).
  exists out. split; [exact Hout|].
  assert (Habsent : forall min_p max_p label,
            In (min_p, max_p, label) tiers ->
            len (filter (in_tier min_p max_p) players) = 0 ->
            ~ In label (Dict.keys out)).
  { intros min_p max_p label Ht Hlen.
    apply (tier_absent players out (min_p, max_p, label) Hall Ht).
    now apply len_zero_nil. }
  split; [|split].
  - intros min_p max_p label Ht Hlen. split; [now apply (Habsent min_p max_p)|].
    apply get_None_keys. now apply (Habsent min_p max_p).
  - intros label e Hget. apply get_Some_In in Hget.
    destruct (Forall2_In_r _ _ _ _ _ _ Hall Hget) as (t & Ht & Hrel).
    destruct (tier_rel_stats players t _ Hrel) as (Hc & _).
    cbn [snd] in Hc. rewrite Hc.
    apply filter_In in Ht. destruct Ht as [_ Hemit].
    apply existsb_filter_nonempty in Hemit. fold (tier_members players t) in Hemit.
    destruct (tier_members players t); [congruence|].
    rewrite len_cons. pose proof (len_nonneg _ l). lia.
  - intros Hb. apply (Habsent 31 999).
    + unfold tiers. cbn [In]. tauto.
    + rewrite filter_none; [reflexivity|].
      intros p Hp. unfold in_tier. apply Hb in Hp.
      apply andb_false_iff. left. apply Z.leb_gt. lia.
Qed.

(** ** The target-team breakdown and the comparator *)

Lemma get_set_eq (V : Type) (k : string) (v : V) (d : Dict.t V) :
  Dict.get k (Dict.set k v d) = Some v.
Proof.
  induction d as [|[k' v'] d IH]; simpl.
  - now rewrite String.eqb_refl.
  - destruct (String.eqb k k') eqn:E; simpl; rewrite E; auto.
Qed.

Lemma get_set_ne (V : Type) (k k' : string) (v : V) (d : Dict.t V) :
  k' <> k -> Dict.get k' (Dict.set k v d) = Dict.get k' d.
Proof.
  intros Hne. induction d as [|[k0 v0] d IH]; simpl.
  - apply String.eqb_neq in Hne. now rewrite Hne.
  - destruct (String.eqb k k0) eqn:E; simpl.
    + apply String.eqb_eq in E; subst k0.
      apply String.eqb_neq in Hne. now rewrite Hne.
    + now rewrite IH.
Qed.

Lemma duke_fan_out_get (p : Player) (pos : string) (ps : list string)
  (acc : Dict.t (list Player)) :
  Dict.get pos
    (fold_left (fun acc q => Dict.update [] q (fun l => (l ++ [p])%list) acc)
       ps acc) =
  match map (fun _ : string => p) (filter (String.eqb pos) ps) with
  | [] => Dict.get pos acc
  | occ => Some (Dict.get_or [] pos acc ++ occ)%list
  end.
Proof.
  revert acc. induction ps as [|q ps IH]; intros acc; simpl.
  - reflexivity.
  - rewrite IH. destruct (String.eqb pos q) eqn:E; simpl.
    + apply String.eqb_eq in E. subst q.
      unfold Dict.get_or at 1. rewrite get_update_eq.
      destruct (map _ (filter _ ps)); [reflexivity|].
      now rewrite <- app_assoc.
    + apply String.eqb_neq in E. unfold Dict.get_or.
      now rewrite get_update_ne.
Qed.

Lemma duke_positions_snoc (l : list Player) (p : Player) :
  duke_positions (l ++ [p]) =
  fold_left (fun acc q => Dict.update [] q (fun l => (l ++ [p])%list) acc)
    (get_positions p) (duke_positions l).
Proof. unfold duke_positions. now rewrite fold_left_app. Qed.

(** The bucket of [pos] holds the target-team players listed under [pos],
    in input order. *)
Lemma duke_positions_get (duke_players : list Player) (pos : string) :
  Dict.get pos (duke_positions duke_players) =
  match players_at pos duke_players with
  | [] => None
  | ps => Some ps
  end.
Proof.
  induction duke_players as [|p l IH] using rev_ind.
  - reflexivity.
  - rewrite duke_positions_snoc, duke_fan_out_get.
    unfold players_at in *. rewrite flat_map_app. cbn [flat_map].
    rewrite app_nil_r. unfold Dict.get_or. rewrite IH.
    destruct (map _ (filter _ (get_positions p))) as [|x occ].
    + now rewrite app_nil_r.
    + destruct (flat_map _ l); reflexivity.
Qed.

Lemma duke_positions_nodup (duke_players : list Player) :
  NoDup (Dict.keys (duke_positions duke_players)).
Proof.
  induction duke_players as [|p l IH] using rev_ind.
  - constructor.
  - rewrite duke_positions_snoc. generalize (duke_positions l) IH.
    induction (get_positions p) as [|q ps IHps]; intros acc Hnd; simpl.
    + assumption.
    + apply IHps. now apply NoDup_keys_update.
Qed.

Lemma bids_players_at (pos : string) (players : list Player) :
  bids (players_at pos players) = bids_at pos players.
Proof.
  unfold bids, players_at, bids_at.
  induction players as [|p l IH]; cbn [flat_map]; [reflexivity|].
  now rewrite map_app, IH, map_map.
Qed.

(** The breakdown never raises; the mean stored under [pos] is the mean of
    the target team's bids observed at [pos]. *)
Lemma duke_position_breakdown_ok (duke_players : list Player) :
  exists out,
    duke_position_breakdown duke_players = Ok out
    /\ NoDup (Dict.keys out)
    /\ forall pos d,
         Dict.get pos out = Some d ->
         mean (bids_at pos duke_players) = Ok (PositionBreakdown.avgBid d).
Proof.
  destruct (map_items_ok (fun _ players => breakdown_entry players)
              (fun pos ps d =>
                 mean (bids_at pos duke_players)
                 = Ok (PositionBreakdown.avgBid d))
              (duke_positions duke_players)) as (out & Hout & Hall).
  - apply duke_positions_nodup.
  - intros pos ps Hin.
    apply In_get_Some in Hin; [|apply duke_positions_nodup].
    rewrite duke_positions_get in Hin.
    destruct (players_at pos duke_players) as [|q qs] eqn:E; [discriminate|].
    injection Hin as <-. unfold breakdown_entry.
    rewrite <- bids_players_at, E.
    destruct (mean_ok (bids (q :: qs))) as (avg & Havg); [discriminate|].
    rewrite Havg. cbn [bind]. eexists. split; reflexivity.
  - exists out. split; [exact Hout|]. split.
    + rewrite (item_rel_keys _ _ _ Hall). apply duke_positions_nodup.
    + intros pos d Hget.
      destruct (item_rel_get _ _ _ _ _ Hall Hget) as (ps & _ & H). exact H.
Qed.

Lemma Qlt_bool_iff (a b : Q) : Qlt_bool a b = true <-> (a < b)%Q.
Proof.
  unfold Qlt_bool. rewrite negb_true_iff. split.
  - intros H. apply Qnot_le_lt. intros Hle.
    apply Qle_bool_iff in Hle. congruence.
  - intros Hlt. destruct (Qle_bool b a) eqn:E; [|reflexivity].
    apply Qle_bool_iff in E. exfalso. now apply (Qlt_not_le a b).
Qed.

Lemma Qlt_bool_nonzero (q : Q) : Qlt_bool 0 q = true -> Qeq_bool q 0 = false.
Proof.
  intros H. apply Qlt_bool_iff in H.
  destruct (Qeq_bool q 0) eqn:E; [|reflexivity].
  apply Qeq_bool_iff in E. rewrite E in H. now apply Qlt_irrefl in H.
Qed.

(** A comparison row never raises; its label is decided by the strict
    test [duke_avg > league_avg]. *)
Lemma compare_entry_ok (duke_avg league_avg : Q) :
  exists c,
    compare_entry duke_avg league_avg = Ok c
    /\ Comparison.dukeAvg c = duke_avg
    /\ Comparison.leagueAvg c = league_avg
    /\ Comparison.interpretation c =
         (if Qlt_bool league_avg duke_avg then "overpaid" else "value").
Proof.
  unfold compare_entry.
  destruct (Qlt_bool 0 league_avg) eqn:E.
  - unfold truediv. rewrite (Qlt_bool_nonzero _ E). cbn [bind].
    eexists. split; [reflexivity|]. repeat split; reflexivity.
  - cbn [bind]. eexists. split; [reflexivity|]. repeat split; reflexivity.
Qed.

Lemma foldM_ok (A B : Type) (f : A -> B -> result A) (Inv : A -> Prop)
  (l : list B) (a : A) :
  Inv a ->
  (forall a x, In x l -> Inv a -> exists a', f a x = Ok a' /\ Inv a') ->
  exists r, foldM f l a = Ok r /\ Inv r.
Proof.
  revert a. induction l as [|x l IH]; intros a Ha Hstep; simpl.
  - now exists a.
  - destruct (Hstep a x (or_introl eq_refl) Ha) as (a' & Ha' & Hinv).
    rewrite Ha'. cbn [bind]. apply IH; [exact Hinv|].
    intros a0 y Hy. apply Hstep. now right.
Qed.

(** The comparator never raises, and every row of its output was computed
    from the two means of its position. *)
Lemma compare_duke_to_league_ok (duke_players all_players : list Player) :
  exists league duke out,
    analyze_positions all_players = Ok league
    /\ duke_position_breakdown duke_players = Ok duke
    /\ compare_duke_to_league duke_players all_players = Ok out
    /\ forall pos c, Dict.get pos out = Some c -> compared duke league pos c.
Proof.
  destruct (analyze_positions_ok all_players) as (league & Hleague & _).
  destruct (duke_position_breakdown_ok duke_players)
    as (duke & Hduke & Hnd & _).
  exists league, duke. unfold compare_duke_to_league.
  rewrite Hleague, Hduke. cbn [bind].
  destruct (foldM_ok _ _ (compare_step league)
              (fun m => forall pos c,
                          Dict.get pos m = Some c -> compared duke league pos c)
              duke Dict.empty) as (out & Hout & Hinv).
  - intros pos c. discriminate.
  - intros m [pos d] Hin Hm. unfold compare_step.
    destruct (Dict.get pos league) as [l|] eqn:L.
    + destruct (compare_entry_ok (PositionBreakdown.avgBid d)
                  (PositionStats.avgBid l)) as (c & Hc & _).
      rewrite Hc. cbn [bind]. eexists. split; [reflexivity|].
      intros pos' c' Hget. destruct (String.eqb pos' pos) eqn:E.
      * apply String.eqb_eq in E. subst pos'.
        rewrite get_set_eq in Hget. injection Hget as <-.
        exists d, l. split; [now apply In_get_Some|]. auto.
      * apply String.eqb_neq in E. rewrite get_set_ne in Hget by exact E.
        now apply Hm.
    + eexists. split; [reflexivity | exact Hm].
  - exists out. auto.
Qed.


(** ** The insight generator *)

Lemma truediv_Zq (a : Q) (z : Z) :
  truediv a (Zq z) =
  if z =? 0 then Raise ZeroDivisionError else Ok (a / Zq z)%Q.
Proof.
  unfold truediv. destruct (z =? 0) eqn:E.
  - apply Z.eqb_eq in E. subst z. reflexivity.
  - apply Z.eqb_neq in E.
    destruct (Qeq_bool (Zq z) 0) eqn:Q0; [|reflexivity].
    apply Qeq_bool_iff in Q0. unfold Zq, Qeq in Q0. simpl in Q0. lia.
Qed.

Lemma len_eqb_0 (A : Type) (l : list A) :
  (len l =? 0) = match l with [] => true | _ => false end.
Proof.
  destruct l as [|x l]; [reflexivity|].
  apply Z.eqb_neq. rewrite len_cons. pose proof (len_nonneg _ l). lia.
Qed.

Lemma getitem_short (A : Type) (l : list A) (i : nat) :
  (List.length l <= i)%nat -> getitem l i = Raise IndexError.
Proof.
  intros H. unfold getitem. apply nth_error_None in H. now rewrite H.
Qed.

Lemma getitem_ok (A : Type) (l : list A) (i : nat) :
  (i < List.length l)%nat -> exists x, getitem l i = Ok x.
Proof.
  intros H. unfold getitem. destruct (nth_error l i) eqn:E.
  - now eexists.
  - apply nth_error_None in E. lia.
Qed.

(** With no team, or with no player on the target team, the insight
    generator raises [ZeroDivisionError]. *)
Lemma generate_insights_zero_division (duke_players all_players : list Player)
  (teams : Dict.t TeamData) (historical : Historical) :
  teams = [] \/ duke_players = [] \/ all_players = [] ->
  generate_insights duke_players all_players teams historical =
  Raise ZeroDivisionError.
Proof.
  intros H. unfold generate_insights.
  rewrite !truediv_Zq, !len_eqb_0. cbn [bind Z.eqb expected_budget].
  destruct teams as [|t teams]; [reflexivity|]. cbn [bind].
  destruct duke_players as [|d duke_players]; [reflexivity|]. cbn [bind].
  destruct all_players as [|a all_players]; [reflexivity|].
  destruct H as [H | [H | H]]; discriminate.
Qed.

(** Once the three divisions have succeeded, the outcome is decided by the
    historical lookups alone. *)
Lemma generate_insights_lookups (duke_players all_players : list Player)
  (teams : Dict.t TeamData) (historical : Historical) :
  teams <> [] -> duke_players <> [] -> all_players <> [] ->
  if lookups_present historical
  then exists insights,
         generate_insights duke_players all_players teams historical
         = Ok insights
  else generate_insights duke_players all_players teams historical
       = Raise IndexError.
Proof.
  intros Ht Hd Ha. unfold generate_insights.
  rewrite !truediv_Zq, !len_eqb_0. cbn [bind Z.eqb expected_budget].
  destruct teams as [|t teams]; [congruence|]. cbn [bind].
  destruct duke_players as [|d duke_players]; [congruence|]. cbn [bind].
  destruct all_players as [|a all_players]; [congruence|]. cbn [bind].
  unfold lookups_present.
  destruct (1 <=? _)%nat eqn:T; cbn [andb].
  - apply Nat.leb_le in T.
    destruct (getitem_ok _ (aggregateTierInflation (aggregate historical)) 0)
      as (t1 & Ht1); [lia|].
    rewrite Ht1. cbn [bind].
    destruct (4 <=? _)%nat eqn:P.
    + apply Nat.leb_le in P.
      destruct (getitem_ok _
                  (aggregatePriceRangeInflation (aggregate historical)) 3)
        as (e3 & He3); [lia|].
      destruct (getitem_ok _
                  (aggregatePriceRangeInflation (aggregate historical)) 0)
        as (e0 & He0); [lia|].
      rewrite He3, He0. cbn [bind]. eexists. reflexivity.
    + apply Nat.leb_gt in P. rewrite getitem_short by lia. reflexivity.
  - apply Nat.leb_gt in T. rewrite getitem_short by lia. reflexivity.
Qed.

(** ** The report assembler *)

Lemma analyze_teams_nonempty (all_players : list Player) :
  all_players <> [] -> analyze_teams all_players <> [].
Proof.
  destruct all_players as [|p l]; [congruence|]. intros _ Hnil.
  pose proof (analyze_teams_get (p :: l) (get_team p)) as Hget.
  rewrite Hnil in Hget. cbn [filter] in Hget.
  rewrite String.eqb_refl in Hget. discriminate.
Qed.

(** The guarded call sites: the per-team average of a team without
    players and the percentage difference against a league mean of 0 are
    reported as 0. *)
Lemma guarded_sites_emit_zero :
  (forall t,
     exists row,
       team_row {| players := []; total := t |} = Ok row
       /\ TeamComparison.avgPerPlayer row = 0%Q)
  /\ (forall duke_avg,
        exists c,
          compare_entry duke_avg 0 = Ok c /\ Comparison.percentDiff c = 0%Q).
Proof.
  split.
  - intros t. unfold team_row. cbn [players total bind].
    change 260%Q with (Zq 260). rewrite truediv_Zq. cbn [Z.eqb bind].
    eexists. split; reflexivity.
  - intros duke_avg. unfold compare_entry.
    change (Qlt_bool 0 0) with false. cbn [bind].
    eexists. split; reflexivity.
Qed.

Lemma duke_subset (objs : list PlayerObj) :
  snd (extract_players objs) <> [] -> fst (extract_players objs) <> [].
Proof.
  unfold extract_players. cbn [fst snd].
  destruct (filter_map drafted objs); [simpl; congruence | discriminate].
Qed.

(** The aggregators never raise, so an exception of the insight generator
    is the outcome of the whole run. *)
Lemma create_analysis_insights_raise (auction_data : AuctionData)
  (historical : Historical) (e : PyError) :
  let all_players := fst (extract_players (data_players auction_data)) in
  let duke_players := snd (extract_players (data_players auction_data)) in
  generate_insights duke_players all_players (analyze_teams all_players)
    historical = Raise e ->
  create_analysis auction_data historical = Raise e.
Proof.
  intros all_players duke_players Hraise. unfold create_analysis.
  subst all_players duke_players.
  destruct (extract_players (data_players auction_data))
    as [all_players duke_players].
  cbn [fst snd] in Hraise.
  destruct (analyze_positions_ok all_players) as (x1 & H1 & _).
  destruct (duke_position_breakdown_ok duke_players) as (x2 & H2 & _).
  destruct (analyze_price_tiers_ok all_players) as (x3 & H3 & _).
  destruct (analyze_price_tiers_ok duke_players) as (x4 & H4 & _).
  destruct (compare_duke_to_league_ok duke_players all_players)
    as (_ & _ & x5 & _ & _ & H5 & _).
  rewrite H1, H2, H3, H4, H5, Hraise. reflexivity.
Qed.

(** C1 (evaluation of the code where the claim fails): with no player on
    the target team the insight generator raises [ZeroDivisionError]
    whatever the other inputs are, and so does the whole run; the division
    [duke_total / len(duke_players)] (and, without any drafted player,
    [len(all_players) / num_teams]) is not guarded. *)
Theorem empty_roster_raises :
  (forall all_players teams historical,
     generate_insights [] all_players teams historical
     = Raise ZeroDivisionError)
  /\ (forall auction_data historical,
        snd (extract_players (data_players auction_data)) = [] ->
        create_analysis auction_data historical = Raise ZeroDivisionError)
  /\ create_analysis no_duke_snapshot full_reference = Raise ZeroDivisionError
  /\ create_analysis no_draft_snapshot full_reference
     = Raise ZeroDivisionError.
Proof.
  assert (Hgen : forall all_players teams historical,
            generate_insights [] all_players teams historical
            = Raise ZeroDivisionError).
  { intros. apply generate_insights_zero_division. auto. }
  assert (Hrun : forall auction_data historical,
            snd (extract_players (data_players auction_data)) = [] ->
            create_analysis auction_data historical = Raise ZeroDivisionError).
  { intros auction_data historical Hnil.
    apply create_analysis_insights_raise. rewrite Hnil. apply Hgen. }
  split; [exact Hgen|]. split; [exact Hrun|].
  split; apply Hrun; reflexivity.
Qed.



(** ** Sorting *)

Section Sorting.

Context {A : Type} (key : A -> Z) (reverse : bool).

Lemma insert_by_perm (x : A) (l : list A) :
  Permutation (insert_by key reverse x l) (x :: l).
Proof.
  induction l as [|y l IH]; simpl; [reflexivity|].
  destruct (if reverse then _ else _); [reflexivity|].
  rewrite IH. apply perm_swap.
Qed.

Lemma sorted_perm (l : list A) : Permutation (sorted key reverse l) l.
Proof.
  induction l as [|x l IH]; simpl; [reflexivity|].
  rewrite insert_by_perm. now constructor.
Qed.

Lemma insert_by_HdRel (a x : A) (l : list A) :
  in_order key reverse a x ->
  HdRel (in_order key reverse) a l ->
  HdRel (in_order key reverse) a (insert_by key reverse x l).
Proof.
  intros Hax Hal. destruct l as [|y l]; simpl.
  - now constructor.
  - destruct (if reverse then _ else _); constructor; [assumption|].
    now inversion Hal.
Qed.

Lemma insert_by_sorted (x : A) (l : list A) :
  Sorted (in_order key reverse) l ->
  Sorted (in_order key reverse) (insert_by key reverse x l).
Proof.
  induction 1 as [|y l Hs IH Hhd]; simpl.
  - repeat constructor.
  - destruct (if reverse then key y <=? key x else key x <=? key y) eqn:E.
    + constructor; [now constructor|]. constructor.
      unfold in_order. destruct reverse; now apply Z.leb_le.
    + constructor; [exact IH|].
      apply insert_by_HdRel; [|exact Hhd].
      unfold in_order. destruct reverse; apply Z.leb_gt in E; lia.
Qed.

Lemma sorted_sorted (l : list A) :
  Sorted (in_order key reverse) (sorted key reverse l).
Proof.
  induction l as [|x l IH]; simpl; [constructor|].
  now apply insert_by_sorted.
Qed.

End Sorting.

(** C10: in an assembled report the roster list of the target team is in
    descending order of [winningBid] (each entry's bid is at least the
    next entry's), and it is a rearrangement of the entries built from the
    target team's players. *)
Theorem roster_sorted_descending (auction_data : AuctionData)
  (historical : Historical) (report : Analysis.t) :
  create_analysis auction_data historical = Ok report ->
  Sorted (fun a b => RosterEntry.winningBid b <= RosterEntry.winningBid a)
    (DukeRoster.players (Analysis.dukeRoster report))
  /\ exists roster,
       mapM roster_entry (snd (extract_players (data_players auction_data)))
       = Ok roster
       /\ Permutation (DukeRoster.players (Analysis.dukeRoster report)) roster.
Proof.
  unfold create_analysis. intros H.
  destruct (extract_players (data_players auction_data))
    as [all_players duke_players].
  cbn [snd]. bind_inv H.
  injection H as <-. cbn [Analysis.dukeRoster DukeRoster.players].
  split.
  - apply (sorted_sorted RosterEntry.winningBid true).
  - eexists. split; [reflexivity | apply sorted_perm].
Qed.

(** ** The theorems at concrete inputs *)

Lemma league_bids_in_range :
  forall p, In p league -> 1 <= winningBid p <= 999.
Proof.
  intros p Hin. cbn [league In] in Hin.
  repeat (destruct Hin as [<- | Hin]; [vm_compute; split; discriminate|]).
  contradiction.
Defined.

Lemma league_positions_nodup :
  forall p, In p league -> NoDup (get_positions p).
Proof.
  intros p Hin. cbn [league In] in Hin.
  repeat (destruct Hin as [<- | Hin];
          [vm_compute; repeat constructor; cbn [In]; intuition discriminate|]).
  contradiction.
Defined.

Lemma tier_counts_partition_witness :
  exists out,
    analyze_price_tiers league = Ok out
    /\ sum (map TierStats.count (Dict.values out)) = len league.
Proof. exact (tier_counts_partition league league_bids_in_range). Defined.



Lemma totalSpent_per_listing_witness :
  exists out st,
    analyze_positions league = Ok out
    /\ Dict.get "OF" out = Some st
    /\ PositionStats.totalSpent st = 60
    /\ PositionStats.totalSpent st =
         sum (bids (filter (eligible "OF") league)).
Proof.
  destruct (totalSpent_per_listing league) as (out & Hout & H).
  eassert (E : analyze_positions league = Ok _) by (vm_compute; reflexivity).
  rewrite E in Hout. injection Hout as <-.
  destruct (H "OF" _ eq_refl) as (Hocc & Hset).
  do 2 eexists. split; [exact E|]. split; [reflexivity|].
  split; [reflexivity|]. apply Hset. exact league_positions_nodup.
Defined.

Lemma empty_tiers_omitted_witness :
  exists out,
    analyze_price_tiers modest = Ok out
    /\ ~ In "Elite ($31+)" (Dict.keys out)
    /\ Dict.get "Mid-tier ($11-$15)" out <> None
    /\ Dict.get "Value ($6-$10)" out = None.
Proof.
  destruct (empty_tiers_omitted modest) as (out & Hout & Hzero & _ & Helite).
  exists out. split; [exact Hout|]. split; [|split].
  - apply Helite. intros p Hin. cbn [modest In] in Hin.
    repeat (destruct Hin as [<- | Hin]; [vm_compute; reflexivity|]).
    contradiction.
  - eassert (E : analyze_price_tiers modest = Ok _)
      by (vm_compute; reflexivity).
    rewrite E in Hout. injection Hout as <-. discriminate.
  - apply (Hzero 6 10); [|reflexivity].
    unfold tiers. cbn [In]. tauto.
Defined.

Lemma stdDev_zero_below_two_witness :
  exists out st,
    analyze_positions league = Ok out
    /\ Dict.get "1B" out = Some st
    /\ PositionStats.count st = 1
    /\ PositionStats.stdDev st = Exact 0.
Proof.
  destruct (stdDev_zero_below_two league) as (out & Hout & H).
  eassert (E : analyze_positions league = Ok _) by (vm_compute; reflexivity).
  rewrite E in Hout. injection Hout as <-.
  destruct (H "1B" _ eq_refl) as (Hcount & Hsd).
  do 2 eexists. split; [exact E|]. split; [reflexivity|].
  split; [reflexivity|]. apply Hsd. reflexivity.
Defined.


Lemma analyze_teams_partition_witness :
  exists data,
    Dict.get "Unknown" (analyze_teams league) = Some data
    /\ players data = [bench]
    /\ total data = sum (bids (players data))
    /\ sum (map total (Dict.values (analyze_teams league))) = 107.
Proof.
  destruct (analyze_teams_partition league)
    as (_ & _ & Hbucket & _ & Hin & Hsum).
  destruct (Hin bench) as (data & Hget & _).
  { cbn [league In]. tauto. }
  { reflexivity. }
  exists data. split; [exact Hget|].
  apply get_Some_In in Hget.
  destruct (Hbucket _ _ Hget) as (Hplayers & Htotal).
  split; [rewrite Hplayers; reflexivity|].
  split; [exact Htotal|]. rewrite Hsum. reflexivity.
Defined.

Lemma roster_sorted_descending_witness :
  exists report,
    create_analysis league_snapshot full_reference = Ok report
    /\ map RosterEntry.name (DukeRoster.players (Analysis.dukeRoster report))
       = ["Judge"; "Olson"]
    /\ Sorted (fun a b => RosterEntry.winningBid b <= RosterEntry.winningBid a)
         (DukeRoster.players (Analysis.dukeRoster report)).
Proof.
  eexists. split; [vm_compute; reflexivity|]. split; [reflexivity|].
  eapply (roster_sorted_descending league_snapshot full_reference).
  vm_compute. reflexivity.
Defined.

Lemma empty_roster_raises_witness :
  snd (extract_players (data_players no_duke_snapshot)) = []
  /\ fst (extract_players (data_players no_duke_snapshot)) = [webb]
  /\ create_analysis no_duke_snapshot short_reference
     = Raise ZeroDivisionError.
Proof.
  split; [reflexivity|]. split; [reflexivity|].
  apply (proj1 (proj2 empty_roster_raises)). reflexivity.
Defined.

(** * Further properties of the pipeline *)

(** ** The extractor *)







(** ** The position aggregator: counts and extremes *)








Lemma sum_between (lo hi : Z) (data : list Z) :
  (forall b, In b data -> lo <= b <= hi) ->
  lo * len data <= sum data <= hi * len data.
Proof.
  induction data as [|x l IH]; intros Hb.
  - rewrite len_nil, sum_nil. lia.
  - rewrite len_cons, sum_cons.
    specialize (IH (fun b Hin => Hb b (or_intror Hin))).
    specialize (Hb x (or_introl eq_refl)). lia.
Qed.

Lemma Zq_div_between (lo hi s n : Z) :
  0 < n -> lo * n <= s <= hi * n ->
  (Zq lo <= Zq s / Zq n <= Zq hi)%Q.
Proof.
  intros Hn [Hlo Hhi]. unfold Zq.
  assert (Hpos : (0 < inject_Z n)%Q)
    by (change 0%Q with (inject_Z 0); now rewrite <- Zlt_Qlt).
  split.
  - apply Qle_shift_div_l; [exact Hpos|].
    rewrite <- inject_Z_mult. now rewrite <- Zle_Qle.
  - apply Qle_shift_div_r; [exact Hpos|].
    rewrite <- inject_Z_mult. now rewrite <- Zle_Qle.
Qed.

(** The mean of a non-empty list lies between any two bounds of its
    elements. *)
Lemma mean_between (lo hi : Z) (data : list Z) (q : Q) :
  (forall b, In b data -> lo <= b <= hi) ->
  mean data = Ok q ->
  (Zq lo <= q <= Zq hi)%Q.
Proof.
  intros Hb Hmean. destruct data as [|x l]; [discriminate|].
  cbn [mean] in Hmean. injection Hmean as <-.
  apply Zq_div_between; [|now apply sum_between].
  rewrite len_cons. pose proof (len_nonneg _ l). lia.
Qed.




(** ** The target-team breakdown against the position aggregator *)

Lemma contains_keys (V : Type) (k : string) (d : Dict.t V) :
  Dict.contains k d = true <-> In k (Dict.keys d).
Proof.
  unfold Dict.contains. pose proof (get_None_keys k d) as H.
  destruct (Dict.get k d).
  - split; [intros _|reflexivity].
    destruct (in_dec string_dec k (Dict.keys d)) as [Hin | Hnot]; [exact Hin|].
    apply H in Hnot. discriminate.
  - split; [discriminate|]. intros Hin. exfalso. now apply H.
Qed.

Lemma keys_update_congr (V W : Type) (dv : V) (dw : W) (k : string)
  (f : V -> V) (g : W -> W) (d : Dict.t V) (e : Dict.t W) :
  Dict.keys d = Dict.keys e ->
  Dict.keys (Dict.update dv k f d) = Dict.keys (Dict.update dw k g e).
Proof.
  intros Hk. rewrite !keys_update.
  assert (Hc : Dict.contains k d = Dict.contains k e).
  { pose proof (contains_keys _ k d) as Hd.
    pose proof (contains_keys _ k e) as He. rewrite Hk in Hd.
    destruct (Dict.contains k d), (Dict.contains k e); try reflexivity.
    - symmetry. apply He, Hd. reflexivity.
    - apply Hd, He. reflexivity. }
  rewrite Hc, Hk. reflexivity.
Qed.

Lemma keys_update_present (V : Type) (dflt : V) (k : string) (f g : V -> V)
  (d : Dict.t V) :
  Dict.keys (Dict.update dflt k g (Dict.update dflt k f d)) =
  Dict.keys (Dict.update dflt k f d).
Proof.
  rewrite (keys_update dflt k g). unfold Dict.contains.
  now rewrite get_update_eq.
Qed.

Lemma duke_positions_keys (players : list Player) :
  Dict.keys (duke_positions players) = Dict.keys (position_stats players).
Proof.
  induction players as [|p l IH] using rev_ind.
  - reflexivity.
  - rewrite duke_positions_snoc, position_stats_snoc.
    generalize (duke_positions l) (position_stats l) IH.
    induction (get_positions p) as [|q ps IHps]; intros d e Hk; cbn [fold_left].
    + exact Hk.
    + apply IHps. unfold position_step. rewrite keys_update_present.
      now apply keys_update_congr.
Qed.

Lemma players_at_nonempty (pos : string) (players : list Player) :
  players_at pos players <> [] <-> bids_at pos players <> [].
Proof.
  rewrite <- bids_players_at. unfold bids.
  destruct (players_at pos players); simpl; split; congruence.
Qed.

Lemma len_bids (players : list Player) : len (bids players) = len players.
Proof. unfold bids, len. now rewrite length_map. Qed.

(** The rows of the breakdown are computed from the target-team players
    listed under each position. *)
Lemma duke_position_breakdown_rows (duke_players : list Player) :
  exists out,
    duke_position_breakdown duke_players = Ok out
    /\ Dict.keys out = Dict.keys (duke_positions duke_players)
    /\ forall pos d,
         Dict.get pos out = Some d ->
         players_at pos duke_players <> []
         /\ breakdown_entry (players_at pos duke_players) = Ok d.
Proof.
  destruct (map_items_ok (fun _ players => breakdown_entry players)
              (fun pos ps d =>
                 ps = players_at pos duke_players
                 /\ ps <> [] /\ breakdown_entry ps = Ok d)
              (duke_positions duke_players)) as (out & Hout & Hall).
  - apply duke_positions_nodup.
  - intros pos ps Hin.
    apply In_get_Some in Hin; [|apply duke_positions_nodup].
    rewrite duke_positions_get in Hin.
    destruct (players_at pos duke_players) as [|q qs] eqn:E; [discriminate|].
    injection Hin as <-. unfold breakdown_entry.
    destruct (mean_ok (bids (q :: qs))) as (avg & Havg); [discriminate|].
    rewrite Havg. cbn [bind]. eexists. split; [reflexivity|].
    split; [reflexivity|]. split; [discriminate | reflexivity].
  - exists out. split; [exact Hout|]. split.
    + now apply item_rel_keys in Hall.
    + intros pos d Hget.
      destruct (item_rel_get _ _ _ _ _ Hall Hget) as (ps & _ & -> & Hne & Hd).
      auto.
Qed.

(** X4: on one and the same player set the target-team breakdown and the
    position aggregator have the same positions in the same order, and
    for each of them the same [count], [totalSpent] and [avgBid]; the
    breakdown's [players] detail lists, in input order, the name and bid
    of the players listed under the position, so its length is [count]
    and its bids add up to [totalSpent]. *)
Theorem breakdown_matches_positions (players : list Player) :
  exists bd stats,
    duke_position_breakdown players = Ok bd
    /\ analyze_positions players = Ok stats
    /\ Dict.keys bd = Dict.keys stats
    /\ forall pos d,
         Dict.get pos bd = Some d ->
         (exists st,
            Dict.get pos stats = Some st
            /\ PositionBreakdown.count d = PositionStats.count st
            /\ PositionBreakdown.totalSpent d = PositionStats.totalSpent st
            /\ PositionBreakdown.avgBid d = PositionStats.avgBid st)
         /\ PositionBreakdown.players d =
              map (fun p => (fullName p, winningBid p))
                (players_at pos players)
         /\ len (PositionBreakdown.players d) = PositionBreakdown.count d
         /\ sum (map snd (PositionBreakdown.players d)) =
              PositionBreakdown.totalSpent d.
Proof.
  destruct (duke_position_breakdown_rows players) as (bd & Hbd & Hkeys & Hrows).
  destruct (analyze_positions_ok players) as (stats & Hstats & Hall).
  exists bd, stats. split; [exact Hbd|]. split; [exact Hstats|]. split.
  { rewrite Hkeys, (item_rel_keys _ _ _ Hall). apply duke_positions_keys. }
  intros pos d Hget. destruct (Hrows pos d Hget) as (Hne & Hentry).
  unfold breakdown_entry in Hentry.
  destruct (mean (bids (players_at pos players))) as [avg|] eqn:Havg;
    [|discriminate].
  cbn [bind] in Hentry. injection Hentry as <-.
  cbn [PositionBreakdown.count PositionBreakdown.totalSpent
       PositionBreakdown.avgBid PositionBreakdown.players].
  split; [|split; [reflexivity|split]].
  - pose proof (position_stats_get players pos) as Hacc.
    apply players_at_nonempty in Hne.
    destruct (bids_at pos players) as [|b bs] eqn:B; [congruence|].
    destruct (item_rel_get_inv _ _ _ _ _ Hall Hacc) as (st & Hst & Hsum).
    destruct Hsum as (Hc & Ht & Hm & _).
    cbn [PositionAcc.bids PositionAcc.count] in Hc, Ht, Hm.
    exists st. split; [exact Hst|].
    rewrite bids_players_at, B in Havg |- *.
    rewrite Hc, Ht. rewrite <- B, <- bids_players_at, len_bids.
    split; [reflexivity|]. split; [reflexivity|]. congruence.
  - unfold len. now rewrite length_map.
  - rewrite map_map. cbn [snd]. reflexivity.
Qed.

(** ** The comparator: rows, signs and self-comparison *)

(** Every row of the comparator is the comparison of the two means of its
    position. *)
Lemma compare_rows_means (duke_players all_players : list Player) :
  exists out,
    compare_duke_to_league duke_players all_players = Ok out
    /\ forall pos c,
         Dict.get pos out = Some c ->
         mean (bids_at pos duke_players) = Ok (Comparison.dukeAvg c)
         /\ mean (bids_at pos all_players) = Ok (Comparison.leagueAvg c)
         /\ compare_entry (Comparison.dukeAvg c) (Comparison.leagueAvg c)
            = Ok c.
Proof.
  destruct (compare_duke_to_league_ok duke_players all_players)
    as (league & duke & out & Hleague & Hduke & Hout & Hrows).
  exists out. split; [exact Hout|].
  intros pos c Hget.
  destruct (Hrows pos c Hget) as (d & l & Hd & Hl & Hc).
  destruct (compare_entry_ok (PositionBreakdown.avgBid d)
              (PositionStats.avgBid l)) as (c' & Hc' & Hda & Hla & _).
  rewrite Hc in Hc'. injection Hc' as <-.
  destruct (duke_position_breakdown_ok duke_players)
    as (duke' & Hduke' & _ & Hmean).
  rewrite Hduke in Hduke'. injection Hduke' as <-.
  destruct (analyze_positions_get _ _ _ _ Hleague Hl) as (_ & Hsum).
  destruct Hsum as (_ & _ & Hlm & _). cbn [PositionAcc.bids] in Hlm.
  rewrite Hda, Hla. split; [now apply Hmean|]. split; [exact Hlm | exact Hc].
Qed.

Lemma compare_entry_fields (duke_avg league_avg : Q) (c : Comparison.t) :
  compare_entry duke_avg league_avg = Ok c ->
  Comparison.difference c = (duke_avg - league_avg)%Q
  /\ Comparison.percentDiff c =
       (if Qlt_bool 0 league_avg
        then ((duke_avg - league_avg) / league_avg * 100)%Q
        else 0%Q)
  /\ Comparison.interpretation c =
       (if Qlt_bool league_avg duke_avg then "overpaid" else "value").
Proof.
  unfold compare_entry.
  destruct (Qlt_bool 0 league_avg) eqn:E.
  - unfold truediv. rewrite (Qlt_bool_nonzero _ E). cbn [bind].
    intros [= <-]. repeat split; reflexivity.
  - cbn [bind]. intros [= <-]. repeat split; reflexivity.
Qed.

Lemma Qlt_bool_false_iff (a b : Q) : Qlt_bool a b = false <-> ~ (a < b)%Q.
Proof.
  rewrite <- Qlt_bool_iff. destruct (Qlt_bool a b); split; congruence.
Qed.

(** X6: in every row of the comparator [difference] is the target mean
    minus the league mean and the label is "overpaid" exactly when it is
    positive; [percentDiff] is that difference over the league mean times
    100 when the league mean is positive, in which case it is positive
    exactly for the rows labelled "overpaid", and it is 0 when the league
    mean is not positive. *)
Theorem comparison_signs (duke_players all_players : list Player) :
  exists out,
    compare_duke_to_league duke_players all_players = Ok out
    /\ forall pos c,
         Dict.get pos out = Some c ->
         Comparison.difference c =
           (Comparison.dukeAvg c - Comparison.leagueAvg c)%Q
         /\ (Comparison.interpretation c = "overpaid" <->
             (0 < Comparison.difference c)%Q)
         /\ ((0 < Comparison.leagueAvg c)%Q ->
             Comparison.percentDiff c =
               (Comparison.difference c / Comparison.leagueAvg c * 100)%Q
             /\ (Comparison.interpretation c = "overpaid" <->
                 (0 < Comparison.percentDiff c)%Q))
         /\ (~ (0 < Comparison.leagueAvg c)%Q ->
             Comparison.percentDiff c = 0%Q).
Proof.
  destruct (compare_rows_means duke_players all_players) as (out & Hout & H).
  exists out. split; [exact Hout|].
  intros pos c Hget. destruct (H pos c Hget) as (_ & _ & Hc).
  destruct (compare_entry_fields _ _ _ Hc) as (Hdiff & Hpct & Hint).
  set (d := Comparison.dukeAvg c) in *.
  set (l := Comparison.leagueAvg c) in *.
  assert (Hover : Comparison.interpretation c = "overpaid" <-> (l < d)%Q).
  { rewrite Hint. destruct (Qlt_bool l d) eqn:E.
    - apply Qlt_bool_iff in E. tauto.
    - apply Qlt_bool_false_iff in E. split; [discriminate | tauto]. }
  assert (Hsign : (l < d)%Q <-> (0 < d - l)%Q).
  { rewrite <- (Qlt_minus_iff l d). tauto. }
  split; [exact Hdiff|]. rewrite Hdiff.
  split; [tauto|]. split.
  - intros Hl. apply Qlt_bool_iff in Hl. rewrite Hl in Hpct.
    split; [exact Hpct|]. rewrite Hpct.
    apply Qlt_bool_iff in Hl.
    assert (Hscale : (0 < d - l)%Q <-> (0 < (d - l) / l * 100)%Q).
    { split; intros Hp.
      - apply Qmult_lt_0_compat; [|reflexivity].
        apply Qlt_shift_div_l; [exact Hl|]. now rewrite Qmult_0_l.
      - destruct (Qlt_le_dec 0 (d - l)) as [Hpos | Hneg]; [exact Hpos|].
        exfalso. apply (Qlt_not_le _ _ Hp).
        setoid_replace 0%Q with (0 * 100)%Q by ring.
        apply Qmult_le_compat_r; [|discriminate].
        apply Qle_shift_div_r; [exact Hl|]. now rewrite Qmult_0_l. }
    tauto.
  - intros Hl. apply Qlt_bool_false_iff in Hl. now rewrite Hl in Hpct.
Qed.

Lemma compare_fold_keys (league : Dict.t PositionStats.t)
  (items : Dict.t PositionBreakdown.t) (acc : Dict.t Comparison.t) :
  NoDup (Dict.keys items) ->
  (forall k, In k (Dict.keys items) -> ~ In k (Dict.keys acc)) ->
  exists out,
    foldM (compare_step league) items acc = Ok out
    /\ Dict.keys out =
         (Dict.keys acc ++
          filter (fun pos => Dict.contains pos league) (Dict.keys items))%list.
Proof.
  revert acc. induction items as [|[pos d] items IH]; intros acc Hnd Hfresh.
  - exists acc. split; [reflexivity|]. cbn. now rewrite app_nil_r.
  - cbn [Dict.keys map fst] in Hnd, Hfresh.
    inversion Hnd as [|? ? Hnotin Hnd']; subst.
    cbn [foldM compare_step Dict.keys map fst filter].
    unfold Dict.contains at 1.
    destruct (Dict.get pos league) as [l|] eqn:L.
    + destruct (compare_entry_ok (PositionBreakdown.avgBid d)
                  (PositionStats.avgBid l)) as (c & Hc & _).
      rewrite Hc. cbn [bind].
      rewrite set_fresh by (apply Hfresh; now left).
      destruct (IH (acc ++ [(pos, c)])%list Hnd') as (out & Hout & Hkeys).
      { intros k Hk. unfold Dict.keys. rewrite map_app. cbn [map fst].
        intros Hin. apply in_app_or in Hin. destruct Hin as [Hin | [<- | []]].
        - revert Hin. apply Hfresh. now right.
        - contradiction. }
      exists out. split; [exact Hout|]. rewrite Hkeys.
      unfold Dict.keys. rewrite map_app, <- app_assoc. reflexivity.
    + cbn [bind]. apply IH; [exact Hnd'|].
      intros k Hk. apply Hfresh. now right.
Qed.

(** The comparator's rows are those positions of the breakdown that have
    league statistics, in breakdown order. *)
Lemma comparison_keys (duke_players all_players : list Player) :
  exists bd league out,
    duke_position_breakdown duke_players = Ok bd
    /\ analyze_positions all_players = Ok league
    /\ compare_duke_to_league duke_players all_players = Ok out
    /\ Dict.keys bd = Dict.keys (position_stats duke_players)
    /\ Dict.keys league = Dict.keys (position_stats all_players)
    /\ Dict.keys out =
         filter (fun pos => Dict.contains pos league) (Dict.keys bd).
Proof.
  destruct (duke_position_breakdown_rows duke_players)
    as (bd & Hbd & Hbdkeys & Hrows).
  destruct (analyze_positions_ok all_players) as (league & Hleague & Hall).
  assert (Hnd : NoDup (Dict.keys bd))
    by (rewrite Hbdkeys; apply duke_positions_nodup).
  destruct (compare_fold_keys league bd Dict.empty Hnd) as (out & Hout & Hkeys).
  { intros k _ []. }
  exists bd, league, out.
  split; [exact Hbd|]. split; [exact Hleague|]. split.
  { unfold compare_duke_to_league. rewrite Hleague, Hbd. exact Hout. }
  split; [rewrite Hbdkeys; apply duke_positions_keys|].
  split; [now apply item_rel_keys in Hall | exact Hkeys].
Qed.


(** X7: a player set compared with itself gives, for every position it
    lists, a row labelled "value" whose [difference] is 0 and whose
    [percentDiff] is 0. *)
Theorem self_comparison (players : list Player) :
  exists stats out,
    analyze_positions players = Ok stats
    /\ compare_duke_to_league players players = Ok out
    /\ Dict.keys out = Dict.keys stats
    /\ forall pos c,
         Dict.get pos out = Some c ->
         Comparison.dukeAvg c = Comparison.leagueAvg c
         /\ Comparison.interpretation c = "value"
         /\ (Comparison.difference c == 0)%Q
         /\ (Comparison.percentDiff c == 0)%Q.
Proof.
  destruct (comparison_keys players players)
    as (bd & stats & out & Hbd & Hs & Ho & Hkbd & Hkstats & Hk).
  exists stats, out. split; [exact Hs|]. split; [exact Ho|]. split.
  { rewrite Hk, Hkbd, <- Hkstats.
    apply forallb_filter_id. apply forallb_forall. intros pos Hpos.
    now apply contains_keys. }
  intros pos c Hget.
  destruct (compare_rows_means players players) as (out' & Hout' & H).
  rewrite Ho in Hout'. injection Hout' as <-.
  destruct (H pos c Hget) as (Hd & Hl & Hc).
  assert (Heq : Comparison.dukeAvg c = Comparison.leagueAvg c) by congruence.
  destruct (compare_entry_fields _ _ _ Hc) as (Hdiff & Hpct & Hint).
  rewrite Heq in Hdiff, Hpct, Hint.
  assert (Hirr : Qlt_bool (Comparison.leagueAvg c) (Comparison.leagueAvg c)
                 = false)
    by (apply Qlt_bool_false_iff; apply Qlt_irrefl).
  rewrite Hirr in Hint.
  split; [exact Heq|]. split; [exact Hint|].
  rewrite Hdiff, Hpct. split; [ring|].
  destruct (Qlt_bool 0 (Comparison.leagueAvg c)) eqn:E; [|reflexivity].
  apply Qlt_bool_iff in E. field. intros Hz. rewrite Hz in E.
  now apply Qlt_irrefl in E.
Qed.

(** ** The price-tier aggregator: spend and bands *)

Lemma tier_entry_fields (players : list Player) (total_spent min_p max_p : Z)
  (e : TierStats.t) :
  existsb (in_tier min_p max_p) players = true ->
  tier_entry players total_spent min_p max_p = Ok e ->
  TierStats.minPrice e = min_p
  /\ TierStats.maxPrice e = (if max_p <? 999 then Some max_p else None)
  /\ TierStats.count e = len (filter (in_tier min_p max_p) players)
  /\ TierStats.totalSpent e = sum (bids (filter (in_tier min_p max_p) players))
  /\ mean (bids (filter (in_tier min_p max_p) players))
     = Ok (TierStats.avgBid e).
Proof.
  intros Hex. unfold tier_entry. rewrite Hex. intros H. bind_inv H.
  injection H as <-. cbn. auto.
Qed.

Lemma tier_members_in_band (players : list Player) (min_p max_p b : Z) :
  In b (bids (filter (in_tier min_p max_p) players)) -> min_p <= b <= max_p.
Proof.
  unfold bids. rewrite in_map_iff. intros (p & <- & Hp).
  apply filter_In in Hp. destruct Hp as [_ Hp]. unfold in_tier in Hp.
  apply andb_true_iff in Hp. destruct Hp as [H1 H2].
  apply Z.leb_le in H1, H2. lia.
Qed.

(** X8: when every winning bid lies between 0 and 999, the [totalSpent]
    values of the tiers emitted by the price-tier aggregator add up to the
    total spend of the player set. *)
Theorem tier_spend_partition (players : list Player) :
  (forall p, In p players -> 0 <= winningBid p <= 999) ->
  exists out,
    analyze_price_tiers players = Ok out
    /\ sum (map TierStats.totalSpent (Dict.values out)) = sum (bids players).
Proof.
  intros Hb.
  destruct (analyze_price_tiers_ok players) as (out & Hout & Hall).
  exists out. split; [exact Hout|].
  unfold Dict.values. rewrite map_map.
  rewrite (Forall2_map_eq _ _ _ (tier_rel players)
             (fun kv => TierStats.totalSpent (snd kv))
             (fun t => sum (bids (tier_members players t))) _ _
             (fun t kv H => proj1 (proj2 (tier_rel_stats players t kv H)))
             Hall).
  rewrite sum_map_filter.
  - now apply tier_spend_total.
  - intros t Ht. now rewrite (tier_not_emitted _ _ Ht).
Qed.

(** X9: every row emitted by the price-tier aggregator belongs to a band
    of the table: its [minPrice] is the band's lower bound, its [maxPrice]
    the upper bound (absent for the band that ends at 999), its
    [totalSpent] lies between [count] times the lower and [count] times
    the upper bound, and its [avgBid] lies inside the band. *)
Theorem tier_rows_in_band (players : list Player) :
  exists out,
    analyze_price_tiers players = Ok out
    /\ forall label e,
         Dict.get label out = Some e ->
         exists min_p max_p,
           In (min_p, max_p, label) tiers
           /\ TierStats.minPrice e = min_p
           /\ TierStats.maxPrice e = (if max_p <? 999 then Some max_p else None)
           /\ min_p * TierStats.count e <= TierStats.totalSpent e
              <= max_p * TierStats.count e
           /\ (Zq min_p <= TierStats.avgBid e <= Zq max_p)%Q.
Proof.
  destruct (analyze_price_tiers_ok players) as (out & Hout & Hall).
  exists out. split; [exact Hout|].
  intros label e Hget. apply get_Some_In in Hget.
  destruct (Forall2_In_r _ _ _ _ _ _ Hall Hget) as ([[min_p max_p] l] & Ht & Hrel).
  apply filter_In in Ht. destruct Ht as [Ht Hemit].
  destruct Hrel as [Hlabel Hentry]. cbn [fst snd tier_label] in Hlabel, Hentry.
  subst l. unfold tier_emitted in Hemit. cbn [fst snd] in Hemit.
  destruct (tier_entry_fields _ _ _ _ _ Hemit Hentry)
    as (Hmin & Hmax & Hc & Hs & Hmean).
  exists min_p, max_p. split; [exact Ht|]. split; [exact Hmin|].
  split; [exact Hmax|]. split.
  - rewrite Hc, Hs, <- len_bids. apply sum_between.
    apply tier_members_in_band.
  - apply (mean_between _ _ _ _ (tier_members_in_band players min_p max_p)).
    exact Hmean.
Qed.

Lemma tier_spend_partition_witness :
  exists out,
    analyze_price_tiers league = Ok out
    /\ sum (map TierStats.totalSpent (Dict.values out)) = sum (bids league).
Proof.
  apply (tier_spend_partition league).
  intros p Hp. pose proof (league_bids_in_range p Hp). lia.
Defined.

(** ** The insight generator: what the implications mean *)




Lemma len_pos (A : Type) (x : A) (l : list A) : 0 < len (x :: l).
Proof. rewrite len_cons. pose proof (len_nonneg _ l). lia. Qed.



(** ** The report assembler: when a report is produced *)

Lemma truediv_nonzero (a : Q) (z : Z) :
  z <> 0 -> truediv a (Zq z) = Ok (a / Zq z)%Q.
Proof.
  intros Hz. rewrite truediv_Zq. apply Z.eqb_neq in Hz. now rewrite Hz.
Qed.

Lemma truediv_260 (a : Q) : truediv a 260 = Ok (a / 260)%Q.
Proof. reflexivity. Qed.

(** Dividing by a mean [s / n]: it is zero exactly when [s] is. *)
Lemma truediv_by_mean (a : Q) (s n : Z) :
  0 < n ->
  truediv a (Zq s / Zq n) =
  if s =? 0 then Raise ZeroDivisionError else Ok (a / (Zq s / Zq n))%Q.
Proof.
  intros Hn. unfold truediv.
  assert (H : Qeq_bool (Zq s / Zq n) 0 = (s =? 0)).
  { destruct n as [|p|p]; try lia.
    unfold Qeq_bool, Zq, Qdiv, Qmult, Qinv, inject_Z. cbn.
    rewrite !Z.mul_1_r. destruct s; reflexivity. }
  now rewrite H.
Qed.

Lemma roster_entries_ok (players : list Player) :
  (forall p, In p players -> positions p <> None) ->
  exists roster, mapM roster_entry players = Ok roster.
Proof.
  induction players as [|p l IH]; intros H; cbn [mapM].
  - now eexists.
  - unfold roster_entry at 1.
    destruct (positions p) eqn:E;
      [|exfalso; apply (H p (or_introl eq_refl)); exact E].
    cbn [bind]. destruct IH as (roster & ->); [intros; apply H; now right|].
    cbn [bind]. now eexists.
Qed.

Lemma roster_entries_raise (players : list Player) :
  (exists p, In p players /\ positions p = None) ->
  mapM roster_entry players = Raise KeyError.
Proof.
  induction players as [|p l IH]; intros (q & Hin & Hq); cbn [mapM].
  - contradiction.
  - unfold roster_entry at 1. destruct (positions p) eqn:E; [|reflexivity].
    cbn [bind]. rewrite IH; [reflexivity|].
    destruct Hin as [<- | Hin]; [congruence | eauto].
Qed.

Lemma team_row_ok (data : TeamData) :
  exists row,
    team_row data = Ok row
    /\ TeamComparison.playerCount row = len (players data)
    /\ TeamComparison.totalSpent row = total data
    /\ TeamComparison.remainingBudget row = 260 - total data.
Proof.
  unfold team_row. rewrite truediv_260.
  destruct (players data) as [|p l] eqn:E.
  - cbn [bind]. eexists. split; [reflexivity|]. cbn. auto.
  - rewrite truediv_nonzero by (pose proof (len_pos _ p l); lia).
    cbn [bind]. eexists. split; [reflexivity|]. cbn. auto.
Qed.

Lemma team_rows_ok (all_players : list Player) :
  exists rows,
    Dict.map_items (fun _ data => team_row data) (analyze_teams all_players)
    = Ok rows
    /\ Forall2 (item_rel (fun _ data row =>
                            TeamComparison.playerCount row = len (players data)
                            /\ TeamComparison.totalSpent row = total data
                            /\ TeamComparison.remainingBudget row
                               = 260 - total data))
         (analyze_teams all_players) rows.
Proof.
  apply map_items_ok.
  - apply analyze_teams_nodup.
  - intros team data _. destruct (team_row_ok data) as (row & Hrow & H).
    now exists row.
Qed.

(** What the run does once the target roster is non-empty and the
    historical lookups are present. *)
Lemma create_analysis_tail (auction_data : AuctionData)
  (historical : Historical) :
  let all_players := fst (extract_players (data_players auction_data)) in
  let duke_players := snd (extract_players (data_players auction_data)) in
  duke_players <> [] ->
  lookups_present historical = true ->
  match mapM roster_entry duke_players with
  | Raise e => create_analysis auction_data historical = Raise e
  | Ok _ =>
      if sum (bids all_players) =? 0
      then create_analysis auction_data historical = Raise ZeroDivisionError
      else exists report, create_analysis auction_data historical = Ok report
  end.
Proof.
  intros all_players duke_players Hduke Hlook.
  assert (Hall : all_players <> []) by now apply duke_subset.
  assert (Hteams : analyze_teams all_players <> [])
    by now apply analyze_teams_nonempty.
  unfold create_analysis. subst all_players duke_players.
  destruct (extract_players (data_players auction_data))
    as [all_players duke_players].
  cbn [fst snd] in *.
  destruct (analyze_positions_ok all_players) as (x1 & H1 & _).
  destruct (duke_position_breakdown_ok duke_players) as (x2 & H2 & _).
  destruct (analyze_price_tiers_ok all_players) as (x3 & H3 & _).
  destruct (analyze_price_tiers_ok duke_players) as (x4 & H4 & _).
  destruct (compare_duke_to_league_ok duke_players all_players)
    as (_ & _ & x5 & _ & _ & H5 & _).
  pose proof (generate_insights_lookups duke_players all_players
                (analyze_teams all_players) historical Hteams Hduke Hall)
    as Hins.
  rewrite Hlook in Hins. destruct Hins as (ins & Hins).
  destruct (team_rows_ok all_players) as (rows & Hrows & _).
  rewrite H1, H2, H3, H4, H5, Hins, Hrows. cbn [bind].
  assert (Hnt : len (analyze_teams all_players) <> 0).
  { destruct (analyze_teams all_players) as [|t ts]; [congruence|].
    pose proof (len_pos _ t ts). lia. }
  assert (Hna : 0 < len all_players).
  { destruct all_players as [|a l]; [congruence | apply len_pos]. }
  assert (Hnd : 0 < len duke_players).
  { destruct duke_players as [|d l]; [congruence | apply len_pos]. }
  rewrite !(truediv_nonzero _ (len (analyze_teams all_players))) by exact Hnt.
  rewrite !(truediv_nonzero _ (len (analyze_teams all_players) * 260)) by lia.
  rewrite !(truediv_nonzero _ (len duke_players)) by lia.
  rewrite !(truediv_nonzero _ (len all_players)) by lia.
  rewrite !truediv_260. cbn [bind].
  destruct (mapM roster_entry duke_players) as [roster|e]; [|reflexivity].
  cbn [bind].
  apply Z.ltb_lt in Hna. rewrite Hna. apply Z.ltb_lt in Hna.
  rewrite truediv_by_mean by exact Hna.
  destruct (sum (bids all_players) =? 0); [reflexivity|]. cbn [bind].
  unfold lookups_present in Hlook. apply andb_true_iff in Hlook.
  destruct Hlook as [Ht Hp]. apply Nat.leb_le in Ht, Hp.
  destruct (getitem_ok _ (aggregateTierInflation (aggregate historical)) 0)
    as (t1 & Ht1); [lia|].
  destruct (getitem_ok _
              (aggregatePriceRangeInflation (aggregate historical)) 3)
    as (e3 & He3); [lia|].
  destruct (getitem_ok _
              (aggregatePriceRangeInflation (aggregate historical)) 0)
    as (e0 & He0); [lia|].
  rewrite Ht1, He3, He0. cbn [bind]. eexists. reflexivity.
Qed.



(** X12: a target-team player whose object has no [positions] key makes
    the run raise [KeyError] while the roster list is built (the target
    roster being non-empty and the historical lookups present), although
    the position aggregators accept such a player. *)
Theorem missing_positions_raise (auction_data : AuctionData)
  (historical : Historical) :
  let duke_players := snd (extract_players (data_players auction_data)) in
  lookups_present historical = true ->
  (exists p, In p duke_players /\ positions p = None) ->
  create_analysis auction_data historical = Raise KeyError
  /\ exists stats bd,
       analyze_positions duke_players = Ok stats
       /\ duke_position_breakdown duke_players = Ok bd.
Proof.
  intros duke_players Hlook Hmiss. split.
  - assert (Hduke : duke_players <> []).
    { destruct Hmiss as (p & Hin & _). intros E. rewrite E in Hin.
      contradiction. }
    pose proof (create_analysis_tail auction_data historical Hduke Hlook)
      as Htail.
    fold duke_players in Htail.
    now rewrite (roster_entries_raise _ Hmiss) in Htail.
  - destruct (analyze_positions_ok duke_players) as (stats & Hs & _).
    destruct (duke_position_breakdown_ok duke_players) as (bd & Hb & _).
    eauto.
Qed.

Lemma missing_positions_raise_witness :
  create_analysis unlisted_snapshot full_reference = Raise KeyError.
Proof.
  apply (missing_positions_raise unlisted_snapshot full_reference).
  - reflexivity.
  - exists unlisted. split; [|reflexivity]. cbn. tauto.
Defined.

(** X13: when the winning bids of the drafted players add up to 0 the
    run raises [ZeroDivisionError] although nothing is empty: the overall
    percentage difference divides by the league's mean bid, and its guard
    only tests that the player list is non-empty. *)
Theorem zero_spend_raises (auction_data : AuctionData)
  (historical : Historical) :
  let all_players := fst (extract_players (data_players auction_data)) in
  let duke_players := snd (extract_players (data_players auction_data)) in
  duke_players <> [] ->
  lookups_present historical = true ->
  (forall p, In p duke_players -> positions p <> None) ->
  sum (bids all_players) = 0 ->
  create_analysis auction_data historical = Raise ZeroDivisionError.
Proof.
  intros all_players duke_players Hduke Hlook Hpos Hsum.
  pose proof (create_analysis_tail auction_data historical Hduke Hlook)
    as Htail.
  fold duke_players all_players in Htail.
  destruct (roster_entries_ok _ Hpos) as (roster & Hroster).
  rewrite Hroster, Hsum in Htail. exact Htail.
Qed.

Lemma zero_spend_raises_witness :
  create_analysis free_snapshot full_reference = Raise ZeroDivisionError.
Proof.
  apply (zero_spend_raises free_snapshot full_reference).
  - discriminate.
  - reflexivity.
  - intros p Hin. cbn in Hin. destruct Hin as [<- | []]. discriminate.
  - reflexivity.
Defined.


(** ** The report assembler: the fields of a report *)

Lemma roster_entries_rel (players : list Player) (roster : list RosterEntry.t) :
  mapM roster_entry players = Ok roster -> Forall2 entry_of players roster.
Proof.
  revert roster. induction players as [|p l IH]; intros roster H;
    cbn [mapM] in H.
  - injection H as <-. constructor.
  - unfold roster_entry at 1 in H.
    destruct (positions p) as [ps|] eqn:E; [|discriminate].
    cbn [bind] in H. bind_inv H. injection H as <-.
    constructor; [|now apply IH].
    unfold entry_of. cbn. auto.
Qed.

Lemma team_rows_rel (all_players : list Player)
  (rows : Dict.t TeamComparison.t) :
  Dict.map_items (fun _ data => team_row data) (analyze_teams all_players)
  = Ok rows ->
  Forall2 (item_rel (fun _ => row_of)) (analyze_teams all_players) rows.
Proof.
  intros H.
  destruct (map_items_ok (fun _ data => team_row data) (fun _ => row_of)
              (analyze_teams all_players)) as (rows' & Hrows' & Hall).
  - apply analyze_teams_nodup.
  - intros team data _. destruct (team_row_ok data) as (row & Hrow & _).
    now exists row.
  - rewrite H in Hrows'. now injection Hrows' as <-.
Qed.

(** The parts of a report, read back from a successful run. *)
Lemma create_analysis_inv (auction_data : AuctionData)
  (historical : Historical) (report : Analysis.t) :
  let all_players := fst (extract_players (data_players auction_data)) in
  let duke_players := snd (extract_players (data_players auction_data)) in
  let teams := analyze_teams all_players in
  create_analysis auction_data historical = Ok report ->
  duke_players <> []
  /\ (exists roster,
        mapM roster_entry duke_players = Ok roster
        /\ DukeRoster.players (Analysis.dukeRoster report)
           = sorted RosterEntry.winningBid true roster)
  /\ Dict.map_items (fun _ data => team_row data) teams
     = Ok (Analysis.teamComparison report)
  /\ LeagueOverview.totalTeams (Analysis.leagueOverview report) = len teams
  /\ LeagueOverview.totalPlayersDrafted (Analysis.leagueOverview report)
     = len all_players
  /\ LeagueOverview.totalMoneySpent (Analysis.leagueOverview report)
     = sum (bids all_players)
  /\ RosterSummary.playerCount
       (DukeRoster.summary (Analysis.dukeRoster report)) = len duke_players
  /\ RosterSummary.totalSpent
       (DukeRoster.summary (Analysis.dukeRoster report))
     = sum (bids duke_players)
  /\ RosterSummary.remainingBudget
       (DukeRoster.summary (Analysis.dukeRoster report))
     = 260 - sum (bids duke_players).
Proof.
  intros all_players duke_players teams. subst teams all_players duke_players.
  unfold create_analysis.
  destruct (extract_players (data_players auction_data))
    as [all_players duke_players].
  cbn [fst snd]. intros H. bind_inv H. injection H as <-.
  cbn [Analysis.dukeRoster Analysis.teamComparison Analysis.leagueOverview
       DukeRoster.players DukeRoster.summary LeagueOverview.totalTeams
       LeagueOverview.totalPlayersDrafted LeagueOverview.totalMoneySpent
       RosterSummary.playerCount RosterSummary.totalSpent
       RosterSummary.remainingBudget].
  split.
  { intros Hnil.
    match goal with
    | E : generate_insights _ _ _ _ = Ok _ |- _ =>
        rewrite generate_insights_zero_division in E by auto; discriminate E
    end. }
  split; [eexists; split; reflexivity|].
  repeat split; reflexivity.
Qed.

Lemma len_flat_map (A B : Type) (f : A -> list B) (l : list A) :
  len (flat_map f l) = sum (map (fun x => len (f x)) l).
Proof.
  induction l as [|x l IH]; cbn [flat_map map].
  - reflexivity.
  - now rewrite len_app, sum_cons, IH.
Qed.

Lemma len_perm (A : Type) (l l' : list A) :
  Permutation l l' -> len l = len l'.
Proof. intros H. unfold len. now rewrite (Permutation_length H). Qed.

Lemma sum_perm (l l' : list Z) : Permutation l l' -> sum l = sum l'.
Proof.
  induction 1 as [|x l l' _ IH|x y l|l l' l'' _ IH1 _ IH2].
  - reflexivity.
  - now rewrite !sum_cons, IH.
  - rewrite !sum_cons. lia.
  - congruence.
Qed.

Lemma analyze_teams_sizes (all_players : list Player) :
  sum (map (fun data => len (players data))
         (Dict.values (analyze_teams all_players))) = len all_players.
Proof.
  rewrite <- len_flat_map. apply len_perm, analyze_teams_players.
Qed.

Lemma Forall2_len (A B : Type) (R : A -> B -> Prop) (l : list A)
  (l' : list B) :
  Forall2 R l l' -> len l = len l'.
Proof. intros H. unfold len. now rewrite (Forall2_length H). Qed.

Lemma row_of_fields (data : TeamData) (row : TeamComparison.t) :
  row_of data row ->
  TeamComparison.playerCount row = len (players data)
  /\ TeamComparison.totalSpent row = total data
  /\ TeamComparison.remainingBudget row = 260 - total data
  /\ (players data <> [] ->
      TeamComparison.avgPerPlayer row
      = (Zq (total data) / Zq (len (players data)))%Q)
  /\ TeamComparison.budgetUtilization row
     = (Zq (total data) / 260 * 100)%Q.
Proof.
  unfold row_of, team_row. rewrite truediv_260.
  destruct (players data) as [|p l] eqn:E.
  - cbn [bind]. intros [= <-]. cbn. repeat split; congruence.
  - rewrite truediv_nonzero by (pose proof (len_pos _ p l); lia).
    cbn [bind]. intros [= <-]. cbn. repeat split; reflexivity.
Qed.

(** X14: in a report the league overview agrees with the per-team table
    and the roster summary with the roster list: [totalTeams] is the
    number of team rows, [totalPlayersDrafted] the sum of their
    [playerCount], [totalMoneySpent] the sum of their [totalSpent];
    the summary's [playerCount] is the length of the roster list, its
    [totalSpent] the sum of the roster's bids, and [totalSpent] plus
    [remainingBudget] is 260. *)
Theorem report_totals_agree (auction_data : AuctionData)
  (historical : Historical) (report : Analysis.t) :
  create_analysis auction_data historical = Ok report ->
  let overview := Analysis.leagueOverview report in
  let rows := Dict.values (Analysis.teamComparison report) in
  let summary := DukeRoster.summary (Analysis.dukeRoster report) in
  let roster := DukeRoster.players (Analysis.dukeRoster report) in
  LeagueOverview.totalTeams overview = len rows
  /\ LeagueOverview.totalPlayersDrafted overview
     = sum (map TeamComparison.playerCount rows)
  /\ LeagueOverview.totalMoneySpent overview
     = sum (map TeamComparison.totalSpent rows)
  /\ RosterSummary.playerCount summary = len roster
  /\ RosterSummary.totalSpent summary
     = sum (map RosterEntry.winningBid roster)
  /\ RosterSummary.totalSpent summary + RosterSummary.remainingBudget summary
     = 260.
Proof.
  intros Hrun overview rows summary roster.
  subst overview rows summary roster.
  destruct (create_analysis_inv _ _ _ Hrun)
    as (_ & (roster & Hroster & Hsorted) & Hrows & Hteams & Hdrafted & Hmoney
        & Hcount & Hspent & Hleft).
  apply team_rows_rel in Hrows. apply roster_entries_rel in Hroster.
  set (all_players := fst (extract_players (data_players auction_data))) in *.
  set (duke_players := snd (extract_players (data_players auction_data))) in *.
  assert (Hvals : forall (g : TeamComparison.t -> Z) (h : TeamData -> Z),
            (forall data row, row_of data row -> g row = h data) ->
            map g (Dict.values (Analysis.teamComparison report))
            = map h (Dict.values (analyze_teams all_players))).
  { intros g h Hgh. unfold Dict.values. rewrite !map_map.
    apply (Forall2_map_eq _ _ _ (item_rel (fun _ => row_of))); [|exact Hrows].
    intros kv kw [_ Hrow]. now apply Hgh. }
  split; [|split; [|split; [|split; [|split]]]].
  - rewrite Hteams. unfold Dict.values, len. rewrite length_map.
    apply (Forall2_len _ _ _ _ _ Hrows).
  - rewrite Hdrafted, <- analyze_teams_sizes. f_equal. symmetry.
    apply Hvals. intros data row H. now apply row_of_fields in H.
  - rewrite Hmoney, <- analyze_teams_total. f_equal. symmetry.
    apply Hvals. intros data row H. now apply row_of_fields in H.
  - rewrite Hcount, Hsorted.
    rewrite (len_perm _ _ _ (sorted_perm RosterEntry.winningBid true roster)).
    apply (Forall2_len _ _ _ _ _ Hroster).
  - rewrite Hspent, Hsorted.
    rewrite (sum_perm _ _
               (Permutation_map RosterEntry.winningBid
                  (sorted_perm RosterEntry.winningBid true roster))).
    f_equal. symmetry. unfold bids.
    apply (Forall2_map_eq _ _ _ entry_of); [|exact Hroster].
    intros p e (_ & _ & Hb & _). exact Hb.
  - rewrite Hspent, Hleft. lia.
Qed.

Lemma report_totals_agree_witness :
  exists report,
    create_analysis league_snapshot full_reference = Ok report
    /\ LeagueOverview.totalMoneySpent (Analysis.leagueOverview report)
       = sum (map TeamComparison.totalSpent
                (Dict.values (Analysis.teamComparison report)))
    /\ LeagueOverview.totalMoneySpent (Analysis.leagueOverview report) = 107.
Proof.
  eexists. split; [vm_compute; reflexivity|]. split; [|reflexivity].
  eapply (report_totals_agree league_snapshot full_reference).
  vm_compute. reflexivity.
Defined.

Lemma duke_filter_team (all_players : list Player) :
  filter (fun p => String.eqb (get_team p) "Duke") all_players
  = filter (fun p => option_eqb (winningTeam p) "Duke") all_players.
Proof.
  apply filter_ext. intros p. unfold get_team, option_eqb.
  destruct (winningTeam p); reflexivity.
Qed.

(** X15: in a report the per-team table has a row for "Duke", and that
    row agrees with the roster summary on [playerCount], [totalSpent] and
    [remainingBudget]: the target roster is the "Duke" bucket of the team
    aggregator. *)
Theorem duke_row_matches_summary (auction_data : AuctionData)
  (historical : Historical) (report : Analysis.t) :
  create_analysis auction_data historical = Ok report ->
  let summary := DukeRoster.summary (Analysis.dukeRoster report) in
  exists row,
    Dict.get "Duke" (Analysis.teamComparison report) = Some row
    /\ TeamComparison.playerCount row = RosterSummary.playerCount summary
    /\ TeamComparison.totalSpent row = RosterSummary.totalSpent summary
    /\ TeamComparison.remainingBudget row
       = RosterSummary.remainingBudget summary.
Proof.
  intros Hrun summary. subst summary.
  destruct (create_analysis_inv _ _ _ Hrun)
    as (Hduke & _ & Hrows & _ & _ & _ & Hcount & Hspent & Hleft).
  apply team_rows_rel in Hrows.
  set (all_players := fst (extract_players (data_players auction_data))) in *.
  pose proof (analyze_teams_get all_players "Duke") as Hget.
  rewrite duke_filter_team in Hget.
  change (filter _ all_players)
    with (snd (extract_players (data_players auction_data))) in Hget.
  destruct (snd (extract_players (data_players auction_data)))
    as [|d duke] eqn:E; [congruence|].
  destruct (item_rel_get_inv _ _ _ _ _ Hrows Hget) as (row & Hrow & Hof).
  apply row_of_fields in Hof. destruct Hof as (Hc & Ht & Hr & _).
  cbn [players total] in Hc, Ht, Hr.
  exists row. split; [exact Hrow|].
  rewrite Hcount, Hspent, Hleft, Hc, Ht, Hr. auto.
Qed.

(** X16: every row of a report's per-team table stands for at least one
    player, so its [avgPerPlayer] is always [totalSpent] over
    [playerCount] (the zero substituted for a team without players is
    never emitted), and its [totalSpent] and [remainingBudget] add up to
    260. *)
Theorem team_rows_nonempty (auction_data : AuctionData)
  (historical : Historical) (report : Analysis.t) :
  create_analysis auction_data historical = Ok report ->
  forall team row,
    Dict.get team (Analysis.teamComparison report) = Some row ->
    0 < TeamComparison.playerCount row
    /\ TeamComparison.avgPerPlayer row
       = (Zq (TeamComparison.totalSpent row)
          / Zq (TeamComparison.playerCount row))%Q
    /\ TeamComparison.totalSpent row + TeamComparison.remainingBudget row
       = 260.
Proof.
  intros Hrun team row Hget.
  destruct (create_analysis_inv _ _ _ Hrun) as (_ & _ & Hrows & _).
  apply team_rows_rel in Hrows.
  destruct (item_rel_get _ _ _ _ _ Hrows Hget) as (data & Hdata & Hof).
  apply row_of_fields in Hof. destruct Hof as (Hc & Ht & Hr & Havg & _).
  rewrite analyze_teams_get in Hdata.
  destruct (filter _ _) as [|p ps] eqn:F; [discriminate|].
  injection Hdata as <-. cbn [players total] in *.
  rewrite Hc, Ht, Hr. split; [apply len_pos|]. split; [|lia].
  apply Havg. discriminate.
Qed.

Lemma duke_row_matches_summary_witness :
  exists report row,
    create_analysis league_snapshot full_reference = Ok report
    /\ Dict.get "Duke" (Analysis.teamComparison report) = Some row
    /\ TeamComparison.totalSpent row = 67.
Proof.
  eexists. 
  destruct (duke_row_matches_summary league_snapshot full_reference _
              ltac:(vm_compute; reflexivity)) as (row & Hrow & _ & Hspent & _).
  exists row. split; [vm_compute; reflexivity|]. split; [exact Hrow|].
  rewrite Hspent. reflexivity.
Defined.

Lemma team_rows_nonempty_witness :
  exists report row,
    create_analysis league_snapshot full_reference = Ok report
    /\ Dict.get "Unknown" (Analysis.teamComparison report) = Some row
    /\ 0 < TeamComparison.playerCount row.
Proof.
  do 2 eexists. split; [vm_compute; reflexivity|]. split; [reflexivity|].
  refine (proj1 (team_rows_nonempty league_snapshot full_reference _ _
                   "Unknown" _ _)); [vm_compute; reflexivity | reflexivity].
Defined.

(** ** The roster list: entries and ties *)

Section Stability.

Context {A : Type} (key : A -> Z) (reverse : bool).

Lemma insert_by_filter (x : A) (l : list A) (k : Z) :
  filter (fun y => key y =? k) (insert_by key reverse x l) =
  if key x =? k then x :: filter (fun y => key y =? k) l
  else filter (fun y => key y =? k) l.
Proof.
  induction l as [|y l IH]; cbn [insert_by filter].
  - reflexivity.
  - destruct (if reverse then key y <=? key x else key x <=? key y) eqn:T;
      cbn [filter].
    + reflexivity.
    + rewrite IH. destruct (key x =? k) eqn:X; [|reflexivity].
      apply Z.eqb_eq in X.
      assert (Hy : (key y =? k) = false).
      { apply Z.eqb_neq. destruct reverse; apply Z.leb_gt in T; lia. }
      now rewrite Hy.
Qed.

(** The sort is stable: the elements with a given key keep their
    relative order. *)
Lemma sorted_stable (l : list A) (k : Z) :
  filter (fun y => key y =? k) (sorted key reverse l) =
  filter (fun y => key y =? k) l.
Proof.
  induction l as [|x l IH]; cbn [sorted fold_right filter].
  - reflexivity.
  - fold (sorted key reverse l). rewrite insert_by_filter, IH. reflexivity.
Qed.

End Stability.

(** X17: the roster list of a report has one entry per target-team
    player, carrying the player's name, position list and winning bid and
    the player's [mlbTeam], or "FA" when the player has none; the list is
    a rearrangement of these entries in which the entries with the same
    winning bid keep the order the players have in the snapshot. *)
Theorem roster_entries_stable (auction_data : AuctionData)
  (historical : Historical) (report : Analysis.t) :
  create_analysis auction_data historical = Ok report ->
  let duke_players := snd (extract_players (data_players auction_data)) in
  let listed := DukeRoster.players (Analysis.dukeRoster report) in
  exists roster,
    Forall2 entry_of duke_players roster
    /\ Permutation listed roster
    /\ forall bid,
         filter (fun e => RosterEntry.winningBid e =? bid) listed =
         filter (fun e => RosterEntry.winningBid e =? bid) roster.
Proof.
  intros Hrun duke_players listed. subst duke_players listed.
  destruct (create_analysis_inv _ _ _ Hrun)
    as (_ & (roster & Hroster & Hsorted) & _).
  exists roster. split; [now apply roster_entries_rel|].
  rewrite Hsorted. split; [apply sorted_perm|].
  intros bid. apply sorted_stable.
Qed.

Lemma roster_entries_stable_witness :
  exists report,
    create_analysis tied_snapshot full_reference = Ok report
    /\ map RosterEntry.name
         (DukeRoster.players (Analysis.dukeRoster report))
       = ["Judge"; "Olson"; "Alonso"]
    /\ map RosterEntry.name
         (filter (fun e => RosterEntry.winningBid e =? 22)
            (DukeRoster.players (Analysis.dukeRoster report)))
       = ["Olson"; "Alonso"].
Proof.
  eexists. split; [vm_compute; reflexivity|]. split; [reflexivity|].
  destruct (roster_entries_stable tied_snapshot full_reference _
              ltac:(vm_compute; reflexivity)) as (roster & Hrel & _ & Hties).
  rewrite (Hties 22).
  assert (Hbid : forall l r,
            Forall2 entry_of l r ->
            map RosterEntry.name
              (filter (fun e => RosterEntry.winningBid e =? 22) r)
            = map fullName (filter (fun p => winningBid p =? 22) l)).
  { induction 1 as [|p e l r (Hn & _ & Hb & _) _ IH]; cbn [filter map].
    - reflexivity.
    - rewrite Hb. destruct (winningBid p =? 22); cbn [map]; now rewrite ?Hn, IH. }
  rewrite (Hbid _ _ Hrel). reflexivity.
Defined.

(** ** The team map, totality of the aggregators, the variance *)

Lemma sum_at_least (A : Type) (g : A -> Z) (l : list A) :
  (forall x, In x l -> 1 <= g x) -> len l <= sum (map g l).
Proof.
  induction l as [|x l IH]; intros H; cbn [map].
  - rewrite len_nil, sum_nil. lia.
  - rewrite len_cons, sum_cons.
    specialize (IH (fun y Hy => H y (or_intror Hy))).
    specialize (H x (or_introl eq_refl)). lia.
Qed.

Lemma team_bucket_nonempty (all_players : list Player) (team : string)
  (data : TeamData) :
  In (team, data) (analyze_teams all_players) -> players data <> [].
Proof.
  intros Hin. apply In_get_Some in Hin; [|apply analyze_teams_nodup].
  rewrite analyze_teams_get in Hin.
  destruct (filter _ all_players); [discriminate|].
  injection Hin as <-. discriminate.
Qed.

(** X18: the team aggregator has a bucket for exactly the team keys that
    occur among the players (the winning team, or "Unknown"), so it has at
    most as many buckets as there are players and none for an empty
    player list. *)
Theorem team_map_bounds (all_players : list Player) :
  let teams := analyze_teams all_players in
  (forall team,
     In team (Dict.keys teams) <->
     exists p, In p all_players /\ get_team p = team)
  /\ len teams <= len all_players
  /\ (teams = [] <-> all_players = []).
Proof.
  intros teams. subst teams. split; [|split].
  - intros team.
    pose proof (analyze_teams_get all_players team) as Hget.
    pose proof (get_None_keys team (analyze_teams all_players)) as Hnone.
    split.
    + intros Hin.
      destruct (filter (fun p => String.eqb (get_team p) team) all_players)
        as [|p ps] eqn:F; [apply Hnone in Hget; contradiction|].
      exists p.
      assert (Hp : In p (filter (fun p => String.eqb (get_team p) team)
                           all_players)) by (rewrite F; now left).
      apply filter_In in Hp. destruct Hp as [Hp E].
      apply String.eqb_eq in E. auto.
    + intros (p & Hp & Hteam).
      assert (Hin : In p (filter (fun p => String.eqb (get_team p) team)
                            all_players)).
      { apply filter_In. split; [exact Hp|]. now apply String.eqb_eq. }
      destruct (filter _ all_players) as [|q qs]; [contradiction|].
      destruct (in_dec string_dec team (Dict.keys (analyze_teams all_players)))
        as [Hk | Hk]; [exact Hk|].
      apply Hnone in Hk. congruence.
  - rewrite <- analyze_teams_sizes.
    replace (len (analyze_teams all_players))
      with (len (Dict.values (analyze_teams all_players)))
      by (unfold Dict.values, len; now rewrite length_map).
    apply sum_at_least. intros data Hin.
    unfold Dict.values in Hin. apply in_map_iff in Hin.
    destruct Hin as ([team d] & <- & Hin). cbn [snd].
    apply team_bucket_nonempty in Hin.
    destruct (players d) as [|p ps]; [congruence|].
    pose proof (len_pos _ p ps). lia.
  - split.
    + intros Hnil. destruct all_players as [|p l]; [reflexivity|].
      exfalso. revert Hnil. apply analyze_teams_nonempty. discriminate.
    + intros ->. reflexivity.
Qed.






(** ** The further properties at concrete inputs *)




Lemma breakdown_matches_positions_witness :
  exists bd d,
    duke_position_breakdown duke_roster = Ok bd
    /\ Dict.get "1B" bd = Some d
    /\ PositionBreakdown.players d = [("Olson", 22)]
    /\ len (PositionBreakdown.players d) = PositionBreakdown.count d.
Proof.
  destruct (breakdown_matches_positions duke_roster)
    as (bd & stats & Hbd & _ & _ & H).
  eassert (E : duke_position_breakdown duke_roster = Ok _)
    by (vm_compute; reflexivity).
  rewrite E in Hbd. injection Hbd as <-.
  destruct (H "1B" _ eq_refl) as (_ & Hplayers & Hlen & _).
  do 2 eexists. split; [exact E|]. split; [reflexivity|].
  split; [rewrite Hplayers; reflexivity | exact Hlen].
Defined.


Lemma comparison_signs_witness :
  exists out c,
    compare_duke_to_league duke_roster league = Ok out
    /\ Dict.get "OF" out = Some c
    /\ Comparison.interpretation c = "overpaid"
    /\ (0 < Comparison.percentDiff c)%Q.
Proof.
  destruct (comparison_signs duke_roster league) as (out & Hout & H).
  eassert (E : compare_duke_to_league duke_roster league = Ok _)
    by (vm_compute; reflexivity).
  rewrite E in Hout. injection Hout as <-.
  destruct (H "OF" _ eq_refl) as (_ & _ & Hpct & _).
  destruct Hpct as (_ & Hiff); [vm_compute; reflexivity|].
  do 2 eexists. split; [exact E|]. split; [reflexivity|].
  split; [reflexivity|]. apply Hiff. reflexivity.
Defined.

Lemma self_comparison_witness :
  exists out c,
    compare_duke_to_league league league = Ok out
    /\ Dict.get "OF" out = Some c
    /\ Comparison.interpretation c = "value".
Proof.
  destruct (self_comparison league) as (stats & out & _ & Hout & _ & H).
  eassert (E : compare_duke_to_league league league = Ok _)
    by (vm_compute; reflexivity).
  rewrite E in Hout. injection Hout as <-.
  destruct (H "OF" _ eq_refl) as (_ & Hvalue & _).
  do 2 eexists. split; [exact E|]. split; [reflexivity | exact Hvalue].
Defined.

Lemma tier_rows_in_band_witness :
  exists out e,
    analyze_price_tiers league = Ok out
    /\ Dict.get "Star ($21-$30)" out = Some e
    /\ 21 * TierStats.count e <= TierStats.totalSpent e.
Proof.
  destruct (tier_rows_in_band league) as (out & Hout & H).
  eassert (E : analyze_price_tiers league = Ok _) by (vm_compute; reflexivity).
  rewrite E in Hout. injection Hout as <-.
  destruct (H "Star ($21-$30)" _ eq_refl)
    as (min_p & max_p & Hin & Hmin & _ & Hspend & _).
  do 2 eexists. split; [exact E|]. split; [reflexivity|].
  rewrite <- Hmin in Hspend. exact (proj1 Hspend).
Defined.

Lemma team_map_bounds_witness :
  In "Unknown" (Dict.keys (analyze_teams league))
  /\ len (analyze_teams league) <= len league.
Proof.
  destruct (team_map_bounds league) as (Hkeys & Hlen & _).
  split; [|exact Hlen].
  apply Hkeys. exists bench. split; [cbn; tauto | reflexivity].
Defined.
